(** * Spending tracker (src/app/page.tsx): a shallow embedding and its properties

    The page keeps a list of transactions in React state, merges every
    parsed CSV file into it, and derives the chart series from the list.
    The development follows the source top to bottom:

    - [JS]: the ECMAScript library functions the page calls (Number,
      String, Array and Date methods);
    - the data model, [getCategoryColor], [handleDrop], the record
      normalizer and the store update of [parseCSV], [getChartData] and
      the tooltip;
    - the notions used in the statements, and the library functions on
      examples;
    - the testable properties of the specification (section 8) and the
      lemmas they rest on.

    Conventions.  A JavaScript number is a binary64 value: Rocq's primitive
    [float].  A JavaScript string is a [string]; every [ascii] stands for
    one UTF-16 code unit below 256, so the model covers the strings whose
    code units are all in the Latin-1 range.  A [Map] keyed by strings that
    is only read with [get] and written with [set] is a [gmap]; a [Map]
    or [Set] that is iterated is a list in insertion order.  An exception
    that ends a callback is [None] (or a constructor of its own).

    Three things come from the runtime and are parameters: the collation
    behind [localeCompare], the offset of the local time zone, and
    [toFixed]. *)

From Stdlib Require Import ZArith List String Ascii Floats Lia Bool.
From Stdlib Require Import DecimalString Sorted.
From stdpp Require Import gmap strings.

Local Open Scope string_scope.
Local Open Scope Z_scope.

(* ===================================================================== *)
(** ** The ECMAScript functions used by the page                          *)
(* ===================================================================== *)

Module JS.

(** *** Numbers *)

(** A number is a binary64 value. *)
Abbreviation number := float.

(** [isNaN(x)] on a number. *)
Definition isNaN (x : number) : bool := PrimFloat.is_nan x.

(** [a === b] on numbers: IEEE equality ([NaN] differs from itself,
    [+0] equals [-0]). *)
Definition strict_eq (a b : number) : bool := PrimFloat.eqb a b.

(** ToBoolean on a number: [NaN], [+0] and [-0] are falsy. *)
Definition truthy (x : number) : bool :=
  negb (PrimFloat.is_nan x) && negb (PrimFloat.eqb x 0%float).

(** [v || 0] where [v] is the result of [Map.get]: [undefined] and the
    falsy numbers give [0]. *)
Definition or_zero (v : option number) : number :=
  match v with
  | Some x => if truthy x then x else 0%float
  | None => 0%float
  end.

(** *** Strings *)

Definition code (c : ascii) : Z := Z.of_N (N_of_ascii c).

(** [s.charCodeAt(i)] for every index, in order. *)
Fixpoint charCodes (s : string) : list Z :=
  match s with
  | EmptyString => []
  | String c s' => code c :: charCodes s'
  end.

(** [c.repeat(n)] for a one-character string. *)
Fixpoint repeat_char (c : ascii) (n : nat) : string :=
  match n with
  | O => EmptyString
  | S n' => String c (repeat_char c n')
  end.

(** [s.padStart(n, c)] with a one-character filler. *)
Definition padStart (n : nat) (c : ascii) (s : string) : string :=
  repeat_char c (n - String.length s) ++ s.

(** [s.split(sep)] with a one-character separator: never empty. *)
Fixpoint split (sep : ascii) (s : string) : list string :=
  match s with
  | EmptyString => [EmptyString]
  | String c s' =>
      if Ascii.eqb c sep then EmptyString :: split sep s'
      else match split sep s' with
           | h :: t => String c h :: t
           | [] => [String c EmptyString]
           end
  end.

(** [s.endsWith(suffix)]. *)
Definition endsWith (s suffix : string) : bool :=
  let n := String.length s in
  let k := String.length suffix in
  (k <=? n)%nat && String.eqb (String.substring (n - k) k s) suffix.

(** [s.substring(a, b)] for [a <= b]; both ends are clamped to the length. *)
Definition substring (a b : nat) (s : string) : string :=
  String.substring a (b - a) s.

(** A template literal's rendering of an integral number. *)
Definition show_int (z : Z) : string := NilZero.string_of_int (Z.to_int z).

(** *** 32-bit integers *)

(** ToInt32 of an integral number. *)
Definition ToInt32 (z : Z) : Z :=
  let m := z mod 2 ^ 32 in
  if m <? 2 ^ 31 then m else m - 2 ^ 32.

(** [z << k]: both the operand and the result are signed 32-bit. *)
Definition shl (z k : Z) : Z := ToInt32 (Z.shiftl (ToInt32 z) (k mod 32)).

(** *** parseFloat *)

(** StrWhiteSpaceChar, restricted to the code units below 256. *)
Definition is_whitespace (c : ascii) : bool :=
  let n := code c in
  (n =? 9) || (n =? 10) || (n =? 11) || (n =? 12) || (n =? 13)
  || (n =? 32) || (n =? 160).

Fixpoint trimStart (s : string) : string :=
  match s with
  | String c s' => if is_whitespace c then trimStart s' else s
  | EmptyString => s
  end.

Definition digit_of (c : ascii) : option Z :=
  let n := code c in
  if (48 <=? n) && (n <=? 57) then Some (n - 48) else None.

(** The longest run of DecimalDigits at the head of [s]: the value it adds
    to [acc], the number of digits, and the rest of the string. *)
Fixpoint scan_digits (s : string) (acc : Z) (cnt : nat) : Z * nat * string :=
  match s with
  | String c s' =>
      match digit_of c with
      | Some d => scan_digits s' (10 * acc + d) (S cnt)
      | None => (acc, cnt, s)
      end
  | EmptyString => (acc, cnt, s)
  end.

(** ExponentPart_opt: the exponent is read only when a digit follows the
    indicator and its sign; otherwise the prefix ends before the [e]. *)
Definition scan_exponent (s : string) : Z :=
  match s with
  | String c s' =>
      if Ascii.eqb c "e" || Ascii.eqb c "E" then
        match s' with
        | String sg s'' =>
            if Ascii.eqb sg "-" then
              let '(v, n, _) := scan_digits s'' 0 0 in
              if (n =? 0)%nat then 0 else - v
            else if Ascii.eqb sg "+" then
              let '(v, n, _) := scan_digits s'' 0 0 in
              if (n =? 0)%nat then 0 else v
            else
              let '(v, n, _) := scan_digits s' 0 0 in
              if (n =? 0)%nat then 0 else v
        | EmptyString => 0
        end
      else 0
  | EmptyString => 0
  end.

(** The mathematical value of the longest prefix that is a
    StrUnsignedDecimalLiteral. *)
Inductive literal :=
  | LitInfinity
  | LitDecimal (mantissa : Z) (exp10 : Z).

Definition scan_unsigned (s : string) : option literal :=
  if String.prefix "Infinity" s then Some LitInfinity
  else
    let '(ip, ni, r1) := scan_digits s 0 0 in
    match r1 with
    | String "." r2 =>
        let '(m, nf, r3) := scan_digits r2 ip 0 in
        if ((ni =? 0) && (nf =? 0))%nat then None
        else Some (LitDecimal m (scan_exponent r3 - Z.of_nat nf))
    | _ =>
        if (ni =? 0)%nat then None
        else Some (LitDecimal ip (scan_exponent r1))
    end.

(** The Number value of [m * 10^e] for [m >= 0]: rounded to the nearest
    binary64, ties to even.  A negative exponent is a division: the
    quotient is taken with at least 55 bits and a sticky bit for the
    remainder, so that its rounding is the rounding of the exact value. *)
Definition number_value (m e : Z) : number :=
  if m =? 0 then 0%float
  else if 0 <=? e then
    SF2Prim (binary_normalize prec emax (m * 10 ^ e) 0 false)
  else
    let den := 10 ^ (- e) in
    let k := Z.max 0 (Z.log2 den - Z.log2 m + 56) in
    let num := m * 2 ^ k in
    let sticky := if num mod den =? 0 then 0 else 1 in
    SF2Prim (binary_normalize prec emax (2 * (num / den) + sticky) (- (k + 1)) false).

Definition literal_value (l : literal) : number :=
  match l with
  | LitInfinity => infinity
  | LitDecimal m e => number_value m e
  end.

Definition parseFloat (s : string) : number :=
  let t := trimStart s in
  match t with
  | String "-" t' =>
      match scan_unsigned t' with
      | Some l => (- literal_value l)%float
      | None => nan
      end
  | String "+" t' =>
      match scan_unsigned t' with
      | Some l => literal_value l
      | None => nan
      end
  | _ =>
      match scan_unsigned t with
      | Some l => literal_value l
      | None => nan
      end
  end.

(** *** Arrays *)

(** [l.findIndex(p)]: the first index whose element satisfies [p], or -1. *)
Fixpoint findIndex_from {A} (p : A -> bool) (l : list A) (i : Z) : Z :=
  match l with
  | [] => -1
  | x :: l' => if p x then i else findIndex_from p l' (i + 1)
  end.

Definition findIndex {A} (p : A -> bool) (l : list A) : Z :=
  findIndex_from p l 0.

(** [l.filter((x, index, self) => f x index self)]: [self] is the array
    that is filtered, [index] counts from 0. *)
Fixpoint filter_from {A} (f : A -> Z -> bool) (l : list A) (i : Z) : list A :=
  match l with
  | [] => []
  | x :: l' =>
      if f x i then x :: filter_from f l' (i + 1) else filter_from f l' (i + 1)
  end.

Definition filter_indexed {A} (f : A -> Z -> list A -> bool) (l : list A) : list A :=
  filter_from (fun x i => f x i l) l 0.

(** [l.sort(cmp)]: the sort is stable (ECMAScript 2019), so with a
    consistent comparator its result is the one of any stable sort.  The
    model inserts from the right; an element goes before the first one it
    does not exceed, which keeps equal elements in their order. *)
Fixpoint insert_by {A} (cmp : A -> A -> Z) (x : A) (l : list A) : list A :=
  match l with
  | [] => [x]
  | y :: l' => if cmp x y <=? 0 then x :: y :: l' else y :: insert_by cmp x l'
  end.

Fixpoint sort {A} (cmp : A -> A -> Z) (l : list A) : list A :=
  match l with
  | [] => []
  | x :: l' => insert_by cmp x (sort cmp l')
  end.

(** The comparison of [l.sort()] without a comparator on strings: by code
    units. *)
Definition compare_code_units (a b : string) : Z :=
  match String.compare a b with
  | Lt => -1
  | Eq => 0
  | Gt => 1
  end.

Definition sort_default (l : list string) : list string :=
  sort compare_code_units l.

(** [Array.from(new Set(l))]: a [Set] keeps the values in the order of
    their first insertion. *)
Fixpoint distinct_from (seen : list string) (l : list string) : list string :=
  match l with
  | [] => []
  | x :: l' =>
      if existsb (String.eqb x) seen then distinct_from seen l'
      else x :: distinct_from (x :: seen) l'
  end.

Definition distinct (l : list string) : list string := distinct_from [] l.

(** *** Date *)

(** A valid Date object is its time value: milliseconds since the epoch,
    UTC.  The local time zone is a constant offset [tza], in minutes east
    of UTC (no daylight-saving rule). *)

Definition msPerDay : Z := 86400000.
Definition msPerMinute : Z := 60000.

Definition Day (t : Z) : Z := t / msPerDay.
Definition TimeWithinDay (t : Z) : Z := t mod msPerDay.
Definition WeekDay (t : Z) : Z := (Day t + 4) mod 7.
Definition LocalTime (tza t : Z) : Z := t + tza * msPerMinute.
Definition UTC (tza t : Z) : Z := t - tza * msPerMinute.

(** Day number of a proleptic Gregorian date, month in 1..12. *)
Definition days_from_civil (y m d : Z) : Z :=
  let y' := if m <=? 2 then y - 1 else y in
  let era := y' / 400 in
  let yoe := y' - era * 400 in
  let doy := (153 * (if 2 <? m then m - 3 else m + 9) + 2) / 5 + d - 1 in
  let doe := yoe * 365 + yoe / 4 - yoe / 100 + doy in
  era * 146097 + doe - 719468.

(** Year, month (1..12) and day of the month of a day number. *)
Definition civil_from_days (z : Z) : Z * Z * Z :=
  let z' := z + 719468 in
  let era := z' / 146097 in
  let doe := z' - era * 146097 in
  let yoe := (doe - doe / 1460 + doe / 36524 - doe / 146096) / 365 in
  let doy := doe - (365 * yoe + yoe / 4 - yoe / 100) in
  let mp := (5 * doy + 2) / 153 in
  let d := doy - (153 * mp + 2) / 5 + 1 in
  let m := if mp <? 10 then mp + 3 else mp - 9 in
  (if m <=? 2 then yoe + era * 400 + 1 else yoe + era * 400, m, d).

Definition days_in_month (y m : Z) : Z :=
  (if m =? 12 then days_from_civil (y + 1) 1 1 else days_from_civil y (m + 1) 1)
  - days_from_civil y m 1.

Definition digits_value (s : string) : option Z :=
  let '(v, n, r) := scan_digits s 0 0 in
  if ((n =? String.length s) && negb (n =? 0))%nat then Some v else None.

(** [new Date(s)] for the date-only form [YYYY-MM-DD], which is read as
    UTC midnight.  [None] stands for every other string: the result is
    then an Invalid Date, or left to the implementation. *)
Definition Date_of_string (s : string) : option Z :=
  if (String.length s =? 10)%nat
     && String.eqb (String.substring 4 1 s) "-"
     && String.eqb (String.substring 7 1 s) "-"
  then
    match digits_value (String.substring 0 4 s),
          digits_value (String.substring 5 2 s),
          digits_value (String.substring 8 2 s) with
    | Some y, Some m, Some d =>
        if (1 <=? m) && (m <=? 12) && (1 <=? d) && (d <=? days_in_month y m)
        then Some (days_from_civil y m d * msPerDay)
        else None
    | _, _, _ => None
    end
  else None.

(** [d.getDay()] and [d.getDate()]: local time. *)
Definition getDay (tza t : Z) : Z := WeekDay (LocalTime tza t).

Definition getDate (tza t : Z) : Z :=
  let '(_, _, d) := civil_from_days (Day (LocalTime tza t)) in d.

(** [d.setDate(dt)]: the day of the month of the local time is replaced,
    the local time of day is kept; the result is the new time value. *)
Definition setDate (tza t dt : Z) : Z :=
  let lt := LocalTime tza t in
  let '(y, m, _) := civil_from_days (Day lt) in
  UTC tza ((days_from_civil y m 1 + dt - 1) * msPerDay + TimeWithinDay lt).

Definition pad_int (n : nat) (z : Z) : string :=
  padStart n "0" (show_int z).

(** [d.toISOString()]: the UTC fields. *)
Definition toISOString (t : Z) : string :=
  let '(y, m, d) := civil_from_days (Day t) in
  let w := TimeWithinDay t in
  let year :=
    if (0 <=? y) && (y <=? 9999) then pad_int 4 y
    else if y <? 0 then "-" ++ pad_int 6 (- y)
    else "+" ++ pad_int 6 y in
  year ++ "-" ++ pad_int 2 m ++ "-" ++ pad_int 2 d ++ "T"
    ++ pad_int 2 (w / 3600000) ++ ":" ++ pad_int 2 (w / 60000 mod 60) ++ ":"
    ++ pad_int 2 (w / 1000 mod 60) ++ "." ++ pad_int 3 (w mod 1000) ++ "Z".

End JS.

(* ===================================================================== *)
(** ** The data model                                                     *)
(* ===================================================================== *)

(** [interface Transaction]. *)
Record Transaction := {
  date : string;          (* YYYY-MM-DD format *)
  amount : JS.number;     (* positive for spending, negative for credits *)
  description : string;   (* merchant/transaction description *)
  category : string       (* spend category from CSV *)
}.

(** [type ViewMode]. *)
Inductive ViewMode := cumulative | daily | weekly.

#[global] Instance ViewMode_eq_dec : EqDecision ViewMode.
Proof. solve_decision. Defined.

#[global] Instance ViewMode_countable : Countable ViewMode.
Proof.
  refine (inj_countable'
    (fun v => match v with cumulative => 0%nat | daily => 1%nat | weekly => 2%nat end)
    (fun n => match n with 0%nat => cumulative | 1%nat => daily | _ => weekly end) _).
  by intros [].
Defined.

(** One element of [results.data]: with [header: true] the parser gives an
    object per line, keyed by the header names; a field is a string, or
    absent when the line is short or the file has no such column. *)
Record RawRow := {
  Transaction_Date : option string;   (* row['Transaction Date'] *)
  Amount : option string;             (* row['Amount'] *)
  Description : option string;        (* row['Description'] *)
  Category : option string            (* row['Category'] *)
}.

(** A dropped file: its name, and the rows the CSV parser reads from it. *)
Record File := {
  name : string;
  rows : list RawRow
}.

(* ===================================================================== *)
(** ** getCategoryColor                                                   *)
(* ===================================================================== *)

(** What [getCategoryColor] can return: a string, or, for a category that
    names a member of [Object.prototype], that member ([colors] is an
    object literal, and [colors[category]] follows the prototype chain). *)
Inductive color :=
  | Css (s : string)
  | PrototypeMember (key : string).

Definition colors : gmap string string :=
  list_to_map [
    ("Groceries", "#10b981");
    ("Gas", "#f59e0b");
    ("Restaurants", "#ef4444");
    ("Entertainment", "#8b5cf6");
    ("Shopping", "#ec4899");
    ("Travel", "#3b82f6");
    ("Bills & Utilities", "#14b8a6");
    ("Healthcare", "#06b6d4");
    ("Personal", "#f97316");
    ("Professional Services", "#6366f1");
    ("Home", "#84cc16");
    ("Automotive", "#eab308");
    ("Education", "#0ea5e9");
    ("Gifts & Donations", "#d946ef");
    ("Uncategorized", "#6b7280")
  ].

(** The properties every object literal inherits; all of them are
    functions or objects, hence truthy. *)
Definition object_prototype_keys : list string :=
  [ "constructor"; "__proto__"; "hasOwnProperty"; "isPrototypeOf";
    "propertyIsEnumerable"; "toLocaleString"; "toString"; "valueOf";
    "__defineGetter__"; "__defineSetter__"; "__lookupGetter__";
    "__lookupSetter__" ].

Definition inherited (key : string) : bool :=
  existsb (String.eqb key) object_prototype_keys.

(** The loop over [category.charCodeAt(i)]:
    [hash = code + ((hash << 5) - hash)]. *)
Fixpoint hash_loop (codes : list Z) (hash : Z) : Z :=
  match codes with
  | [] => hash
  | c :: codes' => hash_loop codes' (c + (JS.shl hash 5 - hash))
  end.

Definition category_hash (category : string) : Z :=
  hash_loop (JS.charCodes category) 0.

(** [hash % 360]: the remainder has the sign of [hash]. *)
Definition hue (category : string) : Z := Z.rem (category_hash category) 360.

Definition getCategoryColor (category : string) : color :=
  match colors !! category with
  | Some c => Css c
  | None =>
      if inherited category then PrototypeMember category
      else Css ("hsl(" ++ JS.show_int (hue category) ++ ", 70%, 50%)")
  end.

(* ===================================================================== *)
(** ** handleDrop                                                         *)
(* ===================================================================== *)

(** The test of [handleDrop] on one file. *)
Definition is_csv (file : File) : bool :=
  JS.endsWith (name file) ".csv" || JS.endsWith (name file) ".CSV".

(** The files that [handleDrop] passes to [parseCSV], in order. *)
Definition handleDrop (files : list File) : list File :=
  List.filter is_csv files.

(* ===================================================================== *)
(** ** parseCSV                                                           *)
(* ===================================================================== *)

(** [v || fallback] for a field. *)
Definition field_or (v : option string) (fallback : string) : string :=
  match v with
  | Some s => if String.eqb s "" then fallback else s
  | None => fallback
  end.

(** A field that is truthy: present and not empty. *)
Definition field_truthy (v : option string) : option string :=
  match v with
  | Some s => if String.eqb s "" then None else Some s
  | None => None
  end.

(** The three ways the callback of [results.data.forEach] ends. *)
Inductive row_result :=
  | Pushed (t : Transaction)   (* newTransactions.push(...) *)
  | Skipped                    (* one of the two tests failed *)
  | TypeError.                 (* [day.padStart] on [undefined] *)

Definition normalize_row (row : RawRow) : row_result :=
  let description := field_or (Description row) "Unknown" in
  let category := field_or (Category row) "Uncategorized" in
  match field_truthy (Transaction_Date row), field_truthy (Amount row) with
  | Some dateStr, Some amountStr =>
      (* const [month, day, year] = dateStr.split('/') *)
      match JS.split "/" dateStr with
      | month :: day :: rest =>
          let year := match rest with y :: _ => y | [] => "undefined" end in
          let date := year ++ "-" ++ JS.padStart 2 "0" month ++ "-"
                        ++ JS.padStart 2 "0" day in
          let amount := (- JS.parseFloat amountStr)%float in
          if negb (JS.isNaN amount)
          then Pushed {| date := date; amount := amount;
                         description := description; category := category |}
          else Skipped
      | _ => TypeError
      end
  | _, _ => Skipped
  end.

(** [results.data.forEach]: [None] when a row throws, which ends the
    [complete] callback before [setTransactions] is reached. *)
Fixpoint forEach_row (data : list RawRow) (newTransactions : list Transaction)
  : option (list Transaction) :=
  match data with
  | [] => Some newTransactions
  | row :: data' =>
      match normalize_row row with
      | Pushed t => forEach_row data' (newTransactions ++ [t])
      | Skipped => forEach_row data' newTransactions
      | TypeError => None
      end
  end.

(** The test of the duplicate filter. *)
Definition same_key (t transaction : Transaction) : bool :=
  String.eqb (date t) (date transaction)
  && JS.strict_eq (amount t) (amount transaction)
  && String.eqb (description t) (description transaction)
  && String.eqb (category t) (category transaction).

Section Store.

(** [a.localeCompare(b)] is the collation of the runtime's locale. *)
Variable localeCompare : string -> string -> Z.

(** The updater passed to [setTransactions]. *)
Definition merge (prev newTransactions : list Transaction) : list Transaction :=
  let combined := (prev ++ newTransactions)%list in
  let unique :=
    JS.filter_indexed
      (fun transaction index self =>
         index =? JS.findIndex (fun t => same_key t transaction) self)
      combined in
  JS.sort (fun a b => localeCompare (date a) (date b)) unique.

(** The [complete] callback on the parsed rows: the next value of the
    [transactions] state. *)
Definition parseCSV (data : list RawRow) (prev : list Transaction)
  : list Transaction :=
  match forEach_row data [] with
  | Some newTransactions => merge prev newTransactions
  | None => prev
  end.

(** Whether the callback ends with an uncaught exception. *)
Definition parseCSV_throws (data : list RawRow) : bool :=
  match forEach_row data [] with
  | Some _ => false
  | None => true
  end.

Definition clearData : list Transaction := [].

(** The values [transactions] can take in a session that starts with an
    empty store. *)
Inductive reachable : list Transaction -> Prop :=
  | reachable_initial : reachable []
  | reachable_parseCSV data prev :
      reachable prev -> reachable (parseCSV data prev)
  | reachable_clearData prev :
      reachable prev -> reachable clearData.

End Store.

(* ===================================================================== *)
(** ** getChartData                                                       *)
(* ===================================================================== *)

(** A chart dataset.  The fields a dataset literal leaves out are [None];
    the [formatter] closure of the total dataset is not part of the data. *)
Record Dataset := {
  ds_type : option string;
  label : string;
  data : list JS.number;
  borderColor : color;
  backgroundColor : color;
  tension : option Z;
  fill : option bool;
  borderWidth : option Z;
  stack : option string;
  barThickness : option string;
  maxBarThickness : option Z;
  datalabels_display : option bool
}.

Record ChartData := {
  labels : list string;
  datasets : list Dataset
}.

Definition no_data_series : Dataset :=
  {| ds_type := None; label := "No data"; data := [];
     borderColor := Css "#666";
     backgroundColor := Css "rgba(102, 102, 102, 0.1)";
     tension := Some 0; fill := None; borderWidth := None;
     stack := None; barThickness := None; maxBarThickness := None;
     datalabels_display := None |}.

Definition no_data : ChartData :=
  {| labels := []; datasets := [no_data_series] |}.

Definition line_dataset (name : string) (values : list JS.number)
    (border bg : string) : Dataset :=
  {| ds_type := None; label := name; data := values;
     borderColor := Css border; backgroundColor := Css bg;
     tension := Some 0; fill := Some false; borderWidth := Some 3;
     stack := None; barThickness := None; maxBarThickness := None;
     datalabels_display := None |}.

(** All unique dates of the transactions, sorted: the x-axis. *)
Definition allDates (transactions : list Transaction) : list string :=
  JS.sort_default (JS.distinct (map date transactions)).

(** The daily aggregation map. *)
Definition dailyMap (transactions : list Transaction) : gmap string JS.number :=
  fold_left
    (fun (m : gmap string JS.number) t =>
       let current := JS.or_zero (m !! date t) in
       <[date t := (current + amount t)%float]> m)
    transactions ∅.

(** [allDates.map(...)] with the running variable [cumulative]. *)
Fixpoint cumulative_from (dm : gmap string JS.number) (dates : list string)
    (cumulative : JS.number) : list JS.number :=
  match dates with
  | [] => []
  | d :: dates' =>
      let dailyAmount := JS.or_zero (dm !! d) in
      let cumulative' := (cumulative + dailyAmount)%float in
      cumulative' :: cumulative_from dm dates' cumulative'
  end.

Definition cumulative_data (transactions : list Transaction) : list JS.number :=
  cumulative_from (dailyMap transactions) (allDates transactions) 0%float.

(** The map date -> category -> amount of the daily view. *)
Definition dailyCategoryMap (transactions : list Transaction)
  : gmap string (gmap string JS.number) :=
  fold_left
    (fun (m : gmap string (gmap string JS.number)) t =>
       let categoryMap := default ∅ (m !! date t) in
       let current := JS.or_zero (categoryMap !! category t) in
       <[date t := <[category t := (current + amount t)%float]> categoryMap]> m)
    transactions ∅.

Definition category_dataset (transactions : list Transaction) (c : string) : Dataset :=
  let dcm := dailyCategoryMap transactions in
  {| ds_type := Some "bar"; label := c;
     data := map (fun d =>
                    match dcm !! d with
                    | Some categoryMap => JS.or_zero (categoryMap !! c)
                    | None => 0%float
                    end) (allDates transactions);
     borderColor := getCategoryColor c;
     backgroundColor := getCategoryColor c;
     tension := None; fill := None; borderWidth := Some 1;
     stack := Some "stack1"; barThickness := Some "flex";
     maxBarThickness := Some 30; datalabels_display := Some false |}.

Definition total_dataset (transactions : list Transaction) : Dataset :=
  {| ds_type := Some "bar"; label := "Total (Daily)";
     data := map (fun d => JS.or_zero (dailyMap transactions !! d))
               (allDates transactions);
     borderColor := Css "transparent";
     backgroundColor := Css "transparent";
     tension := None; fill := None; borderWidth := None;
     stack := Some "total-label"; barThickness := Some "flex";
     maxBarThickness := Some 30; datalabels_display := Some true |}.

Definition daily_datasets (transactions : list Transaction) : list Dataset :=
  let categories := JS.sort_default (JS.distinct (map category transactions)) in
  (map (category_dataset transactions) categories ++ [total_dataset transactions])%list.

Section Weekly.

(** The offset of the local time zone, in minutes east of UTC. *)
Variable tza : Z.

(** The key of the week of a date string: the ISO date of "Monday".
    [None]: the string is not a date that [Date_of_string] reads, and
    [toISOString] throws a RangeError on an Invalid Date. *)
Definition weekKey (s : string) : option string :=
  match JS.Date_of_string s with
  | Some date =>
      let day := JS.getDay tza date in
      let diff := JS.getDate tza date - day + (if day =? 0 then -6 else 1) in
      let monday := JS.setDate tza date diff in
      Some (hd "" (JS.split "T" (JS.toISOString monday)))
  | None => None
  end.

Fixpoint weeklyMap_from (transactions : list Transaction)
    (weeklyMap : gmap string JS.number) : option (gmap string JS.number) :=
  match transactions with
  | [] => Some weeklyMap
  | t :: transactions' =>
      match weekKey (date t) with
      | Some k =>
          let current := JS.or_zero (weeklyMap !! k) in
          weeklyMap_from transactions' (<[k := (current + amount t)%float]> weeklyMap)
      | None => None
      end
  end.

(** Map weekly totals to daily dates. *)
Fixpoint weekly_values (weeklyMap : gmap string JS.number) (dates : list string)
  : option (list JS.number) :=
  match dates with
  | [] => Some []
  | d :: dates' =>
      match weekKey d, weekly_values weeklyMap dates' with
      | Some k, Some vs => Some (JS.or_zero (weeklyMap !! k) :: vs)
      | _, _ => None
      end
  end.

Definition weekly_data (transactions : list Transaction) : option (list JS.number) :=
  match weeklyMap_from transactions ∅ with
  | Some weeklyMap => weekly_values weeklyMap (allDates transactions)
  | None => None
  end.

(** [getChartData()], as a function of the two pieces of state it reads.
    [None]: the weekly view threw. *)
Definition getChartData (transactions : list Transaction)
    (enabledViews : gset ViewMode) : option ChartData :=
  if (length transactions =? 0)%nat || (size enabledViews =? 0)%nat then
    Some no_data
  else
    let d1 :=
      if bool_decide (cumulative ∈ enabledViews)
      then [line_dataset "Cumulative" (cumulative_data transactions)
              "#ffffff" "rgba(255, 255, 255, 0.1)"]
      else [] in
    let d2 :=
      if bool_decide (daily ∈ enabledViews)
      then daily_datasets transactions else [] in
    let d3 :=
      if bool_decide (weekly ∈ enabledViews)
      then match weekly_data transactions with
           | Some values =>
               Some [line_dataset "Weekly" values "#666666" "rgba(102, 102, 102, 0.1)"]
           | None => None
           end
      else Some [] in
    match d3 with
    | Some d3 =>
        Some {| labels := allDates transactions;
                datasets := (d1 ++ d2 ++ d3)%list |}
    | None => None
    end.

End Weekly.

(** [toggleView]. *)
Definition toggleView (view : ViewMode) (prev : gset ViewMode) : gset ViewMode :=
  if bool_decide (view ∈ prev) then prev ∖ {[view]} else prev ∪ {[view]}.

(* ===================================================================== *)
(** ** The tooltip                                                        *)
(* ===================================================================== *)

(** The description as a transaction line shows it. *)
Definition shown_description (t : Transaction) : string :=
  if (35 <? String.length (description t))%nat
  then JS.substring 0 32 (description t) ++ "..."
  else description t.

(** Helper function to pad text for alignment. *)
Definition padRight (text : string) (n : nat) : string :=
  text ++ JS.repeat_char " " (n - String.length text).

(** The [categoryMap] of the label callback: a [Map] that is iterated, so
    its entries are kept in insertion order. *)
Fixpoint group_push (m : list (string * list Transaction)) (t : Transaction)
  : list (string * list Transaction) :=
  match m with
  | [] => [(category t, [t])]
  | (c, txns) :: m' =>
      if String.eqb c (category t) then (c, (txns ++ [t])%list) :: m'
      else (c, txns) :: group_push m' t
  end.

Section Tooltip.

Variable localeCompare : string -> string -> Z.

(** [x.toFixed(digits)]. *)
Variable toFixed : JS.number -> nat -> string.

Definition transaction_line (t : Transaction) : string :=
  let sign := if (0 <? amount t)%float then "+" else "" in
  let descLine := padRight ("    " ++ shown_description t) 40 in
  descLine ++ sign ++ "$" ++ toFixed (abs (amount t)) 2.

Definition category_lines (entry : string * list Transaction) : list string :=
  let '(c, txns) := entry in
  let categoryTotal := fold_left (fun sum t => (sum + amount t)%float) txns 0%float in
  let categoryLine := padRight ("  " ++ c ++ ":") 30 in
  (categoryLine ++ "$" ++ toFixed (abs categoryTotal) 2)
    :: map transaction_line txns.

(** The [label] callback of the tooltip. *)
Definition tooltip_label (transactions : list Transaction) (date_ : string)
    (value : JS.number) (datasetLabel : string) : list string :=
  let dayTransactions :=
    List.filter (fun t => String.eqb (date t) date_) transactions in
  if String.eqb datasetLabel "Total (Daily)" then []
  else
    let categoryMap := fold_left group_push dayTransactions [] in
    let headline := datasetLabel ++ ": $" ++ toFixed (abs value) 2 in
    let breakdown :=
      if (0 <? length categoryMap)%nat
      then "Category Breakdown:"
           :: concat (map category_lines
                        (JS.sort (fun a b => localeCompare (fst a) (fst b))
                           categoryMap))
      else [] in
    headline :: "" :: breakdown.

End Tooltip.

(* ===================================================================== *)
(** ** Notions used in the statements                                     *)
(* ===================================================================== *)

(** The class of a binary64 value under [===]: the two zeros are one
    class, NaN is in none. *)
Definition eq_class (f : spec_float) : option spec_float :=
  match f with
  | S754_nan => None
  | S754_zero _ => Some (S754_zero false)
  | _ => Some f
  end.

(** A binary64 value that is a number other than [-0]. *)
Definition sf_plain (x : spec_float) : Prop :=
  x <> S754_nan /\ x <> S754_zero true.

(** A binary64 value that is neither NaN nor an infinity. *)
Definition sf_finite (x : spec_float) : Prop :=
  match x with
  | S754_zero _ | S754_finite _ _ _ => True
  | _ => False
  end.

(** The test of the duplicate filter, on the element [x] that follows the
    elements [seen]: no earlier element has its key, and [x] has its own
    key (which fails for a NaN amount). *)
Definition first_of_key {A} (keq : A -> A -> bool) (seen : list A) (x : A) : bool :=
  forallb (fun y => negb (keq y x)) seen && keq x x.

(** The elements of [l] that pass the test, [seen] being what precedes. *)
Fixpoint keep_first {A} (keq : A -> A -> bool) (seen l : list A) : list A :=
  match l with
  | [] => []
  | x :: l' =>
      if first_of_key keq seen x
      then x :: keep_first keq (seen ++ [x]) l'
      else keep_first keq (seen ++ [x]) l'
  end.

(** No element has the key of a later one. *)
Definition distinct_keys (l : list Transaction) : Prop :=
  ForallOrdPairs (fun a b => same_key a b = false) l.

(** Non-decreasing dates, in the order of [localeCompare]. *)
Definition date_le (localeCompare : string -> string -> Z) (a b : Transaction) : Prop :=
  localeCompare (date a) (date b) <= 0.

Definition is_digit (c : ascii) : bool :=
  match JS.digit_of c with Some _ => true | None => false end.

(** A date in the form [YYYY-MM-DD]: four digits, two digits, two digits. *)
Definition iso_form (s : string) : bool :=
  match s with
  | String y1 (String y2 (String y3 (String y4 (String h1
      (String m1 (String m2 (String h2 (String d1 (String d2 EmptyString))))))))) =>
      is_digit y1 && is_digit y2 && is_digit y3 && is_digit y4
      && Ascii.eqb h1 "-" && is_digit m1 && is_digit m2
      && Ascii.eqb h2 "-" && is_digit d1 && is_digit d2
  | _ => false
  end.

(** Non-decreasing date strings, compared by code units. *)
Definition date_string_le (a b : Transaction) : Prop :=
  String.leb (date a) (date b) = true.

(** What every value of the store has after an update. *)
Definition store_ok (localeCompare : string -> string -> Z)
    (s : list Transaction) : Prop :=
  Forall (fun t => JS.isNaN (amount t) = false) s
  /\ distinct_keys s
  /\ Sorted (date_le localeCompare) s.

(** The amounts of the transactions of a date, in the order of the store. *)
Definition amounts_on (transactions : list Transaction) (d : string) : list JS.number :=
  map amount (List.filter (fun t => String.eqb (date t) d) transactions).

(** The sum of a list of numbers, added from the left, starting at 0. *)
Definition sum_from_left (l : list JS.number) : JS.number :=
  fold_left (fun s a => (s + a)%float) l 0%float.

(** The sum of the amounts of a date. *)
Definition day_total (transactions : list Transaction) (d : string) : JS.number :=
  sum_from_left (amounts_on transactions d).

(** The sum of all amounts on or before a date: the totals of the days of
    the x-axis that do not come after [d], added in the order of the
    dates. *)
Definition total_on_or_before (transactions : list Transaction) (d : string) : JS.number :=
  sum_from_left
    (map (day_total transactions)
       (List.filter (fun d' => String.leb d' d) (allDates transactions))).

(** The sums after each amount of [l], starting from [s]. *)
Fixpoint running_sums (l : list JS.number) (s : JS.number) : list JS.number :=
  match l with
  | [] => []
  | a :: l' => (s + a)%float :: running_sums l' (s + a)%float
  end.

(** A number that [x || 0] leaves as it is: neither NaN nor [-0]. *)
Definition plain (x : JS.number) : Prop := JS.or_zero (Some x) = x.

(** No running sum of a day is NaN or [-0]. *)
Definition plain_sums (transactions : list Transaction) : Prop :=
  Forall (fun d => Forall plain (running_sums (amounts_on transactions d) 0%float))
    (allDates transactions).

(** The lower case of the letters A to Z. *)
Definition lower_char (c : ascii) : ascii :=
  if (65 <=? JS.code c) && (JS.code c <=? 90)
  then ascii_of_N (N_of_ascii c + 32) else c.

Fixpoint lower (s : string) : string :=
  match s with
  | EmptyString => EmptyString
  | String c s' => String (lower_char c) (lower s')
  end.

(** The acceptance test as the specification words it: the name ends in
    [.csv], compared without regard to case. *)
Definition spec_is_csv (file : File) : bool :=
  JS.endsWith (lower (name file)) ".csv".

(** Sample rows: a purchase, a row that is not a number, a credit, and
    the purchase once more. *)
Definition sample_rows : list RawRow :=
  [ {| Transaction_Date := Some "01/02/2024"; Amount := Some "-12.50";
       Description := Some "COFFEE BAR"; Category := Some "Restaurants" |};
    {| Transaction_Date := Some "01/02/2024"; Amount := Some "abc";
       Description := Some "BROKEN"; Category := None |};
    {| Transaction_Date := Some "1/1/2024"; Amount := Some "30";
       Description := None; Category := Some "Gas" |};
    {| Transaction_Date := Some "01/02/2024"; Amount := Some "-12.5";
       Description := Some "COFFEE BAR"; Category := Some "Restaurants" |} ].

(** The transactions of testable property 3. *)
Definition three_days : list Transaction :=
  [ {| date := "2024-01-01"; amount := 10; description := "a"; category := "Gas" |};
    {| date := "2024-01-02"; amount := -3; description := "b"; category := "Gas" |};
    {| date := "2024-01-03"; amount := 5; description := "c"; category := "Home" |} ].

(** The transactions of testable property 4: 2024-01-01 is a Monday. *)
Definition same_week : list Transaction :=
  [ {| date := "2024-01-01"; amount := 20; description := "monday"; category := "Gas" |};
    {| date := "2024-01-03"; amount := 5; description := "wednesday"; category := "Gas" |} ].

(** Equality of two lists of numbers, bit for bit. *)
Fixpoint numbers_eqb (a b : list JS.number) : bool :=
  match a, b with
  | [], [] => true
  | x :: a', y :: b' => PrimFloat.Leibniz.eqb x y && numbers_eqb a' b'
  | _, _ => false
  end.

(** The offsets, in minutes, of the time zones from UTC-12:00 to
    UTC-00:01, and from UTC to UTC+14:00. *)
Definition west_of_UTC : list Z := map (fun k => - Z.of_nat k) (seq 1 720).
Definition east_of_UTC : list Z := map Z.of_nat (seq 0 841).

(** Rows whose date is not of three components. *)
Definition two_component_row : RawRow :=
  {| Transaction_Date := Some "01/2024"; Amount := Some "-5";
     Description := Some "NO DAY"; Category := None |}.

Definition one_component_row : RawRow :=
  {| Transaction_Date := Some "20240102"; Amount := Some "-5";
     Description := Some "NO SLASH"; Category := None |}.

(** A file whose extension is in mixed case. *)
Definition mixed_case_file : File :=
  {| name := "statement.Csv"; rows := sample_rows |}.

(** A transaction with a description of 50 characters. *)
Definition long_description : Transaction :=
  {| date := "2024-01-02"; amount := 12.5;
     description := "ABCDEFGHIJKLMNOPQRSTUVWXYZabcdefghijklmnopqrstuvwx";
     category := "Shopping" |}.

(** The ISO date of a day number, and the day numbers of the year 2024. *)
Definition iso_date_of_day (n : Z) : string :=
  hd "" (JS.split "T" (JS.toISOString (n * JS.msPerDay))).

Definition days_of_2024 : list Z := map (fun k => 19723 + Z.of_nat k) (seq 0 366).

(** Whether the week key of a day is the day itself less [back n]. *)
Definition week_key_is (tza : Z) (back : Z -> Z) (n : Z) : bool :=
  match weekKey tza (iso_date_of_day n) with
  | Some k => String.eqb k (iso_date_of_day (n - back n))
  | None => false
  end.

(** A string of digits. *)
Fixpoint all_digits (s : string) : bool :=
  match s with
  | EmptyString => true
  | String c s' => is_digit c && all_digits s'
  end.

(* ===================================================================== *)
(** ** Notions used in the further properties                             *)
(* ===================================================================== *)

(** The amounts of the transactions of a date and a category, in the
    order of the store, and their sum. *)
Definition amounts_of_cell (transactions : list Transaction) (d c : string)
  : list JS.number :=
  map amount
    (List.filter (fun t => String.eqb (date t) d && String.eqb (category t) c)
       transactions).

Definition cell_total (transactions : list Transaction) (c d : string) : JS.number :=
  sum_from_left (amounts_of_cell transactions d c).



(** The entry of a date and a category in a map of maps. *)
Definition cell (m : gmap string (gmap string JS.number)) (d c : string)
  : option JS.number :=
  match m !! d with
  | Some categoryMap => categoryMap !! c
  | None => None
  end.

(** Whether a string has a slash. *)
Fixpoint has_slash (s : string) : bool :=
  match s with
  | EmptyString => false
  | String c s' => Ascii.eqb c "/" || has_slash s'
  end.

(** A row on which the callback of [forEach] throws: it has a date and an
    amount, and the date has no slash. *)
Definition throwing_row (row : RawRow) : Prop :=
  exists dateStr amountStr,
    field_truthy (Transaction_Date row) = Some dateStr
    /\ field_truthy (Amount row) = Some amountStr
    /\ has_slash dateStr = false.

(** The [title] callback of the tooltip. *)
Definition tooltip_title (date_ : string) : string :=
  "Transactions on " ++ date_.

(** The [beforeBody] callback of the tooltip. *)
Definition tooltip_beforeBody (transactions : list Transaction) (date_ : string)
  : list string :=
  let dayTransactions :=
    List.filter (fun t => String.eqb (date t) date_) transactions in
  if (length dayTransactions =? 0)%nat then ["No transactions"] else [].

(** The transactions of a date, and those of one category among a list. *)
Definition transactions_on (transactions : list Transaction) (d : string)
  : list Transaction :=
  List.filter (fun t => String.eqb (date t) d) transactions.

Definition of_category (l : list Transaction) (c : string) : list Transaction :=
  List.filter (fun t => String.eqb (category t) c) l.

(** The number of transactions in the groups of a map. *)
Definition grouped (m : list (string * list Transaction)) : nat :=
  fold_right (fun e n => (length (snd e) + n)%nat) 0%nat m.

(** The characters with which a number can start for [parseFloat], and
    those with which it can go on after digits. *)
Definition starts_number (c : ascii) : bool :=
  JS.is_whitespace c || Ascii.eqb c "-" || Ascii.eqb c "+" || is_digit c
  || Ascii.eqb c "." || Ascii.eqb c "I".

Definition continues_number (c : ascii) : bool :=
  is_digit c || Ascii.eqb c "." || Ascii.eqb c "e" || Ascii.eqb c "E".

(* ===================================================================== *)
(** ** The stored copy                                                    *)
(* ===================================================================== *)

(** The [transactions] state together with the entry of [localStorage]
    under [STORAGE_KEY]: [None] when [getItem] gives [null]. *)
Record Session := {
  session_store : list Transaction;
  session_slot : option string
}.

(** What happens to the page: it is loaded (the state starts empty and
    the two effects run), a dropped file has been parsed, or "Clear Data"
    is pressed. *)
Inductive event :=
  | Mount
  | Parsed (data : list RawRow)
  | Clear.

Section Persistence.

Variable localeCompare : string -> string -> Z.

(** [JSON.stringify] on the list of transactions, and [JSON.parse] on a
    stored string: [None] when it throws.  The entry is taken to hold a
    list of transactions whenever it parses, as every entry that the page
    writes does, and writes to the storage are taken to succeed. *)
Variable stringify : list Transaction -> string.
Variable parse : string -> option (list Transaction).

(** The effect that saves: it runs when [transactions] has changed, and
    writes only a list that is not empty. *)
Definition save_effect (transactions : list Transaction) (slot : option string)
  : option string :=
  if (0 <? length transactions)%nat then Some (stringify transactions) else slot.

(** The effect that loads, on mount: the entry is used when it is a
    string that is not empty and that parses; a failure is logged and
    leaves the state empty.  The saving effect first sees the empty
    state, then the loaded one. *)
Definition mount (slot : option string) : Session :=
  match field_truthy slot with
  | Some stored =>
      match parse stored with
      | Some parsed =>
          {| session_store := parsed; session_slot := save_effect parsed slot |}
      | None => {| session_store := []; session_slot := slot |}
      end
  | None => {| session_store := []; session_slot := slot |}
  end.

Definition step (s : Session) (e : event) : Session :=
  match e with
  | Mount => mount (session_slot s)
  | Parsed data =>
      if parseCSV_throws data then s
      else
        let transactions := parseCSV localeCompare data (session_store s) in
        {| session_store := transactions;
           session_slot := save_effect transactions (session_slot s) |}
  | Clear => {| session_store := clearData; session_slot := None |}
  end.

Definition run (events : list event) (s : Session) : Session :=
  fold_left step events s.

(** A store that is not empty has its copy in the storage. *)
Definition saved (s : Session) : Prop :=
  session_store s <> [] -> session_slot s = Some (stringify (session_store s)).

End Persistence.

(* ===================================================================== *)
(** ** The library functions on examples                                  *)
(* ===================================================================== *)

Example parseFloat_decimal :
  JS.parseFloat "-12.50" = (-12.5)%float
  /\ JS.parseFloat "  3.5e2 USD" = 350%float
  /\ JS.parseFloat ".5" = 0.5%float
  /\ JS.parseFloat "0.1" = 0x1.999999999999ap-4%float
  /\ JS.parseFloat "9007199254740993" = 9007199254740992%float
  /\ JS.parseFloat "1e400" = infinity.
Proof. repeat split. Qed.

Example parseFloat_not_a_number :
  JS.isNaN (JS.parseFloat "abc") = true
  /\ JS.isNaN (JS.parseFloat "$5.00") = true
  /\ JS.isNaN (JS.parseFloat ".") = true
  /\ JS.isNaN (JS.parseFloat "-") = true
  /\ JS.isNaN (JS.parseFloat "12abc") = false.
Proof. repeat split. Qed.

Example split_examples :
  JS.split "/" "01/02/2024" = ["01"; "02"; "2024"]
  /\ JS.split "/" "01/2024" = ["01"; "2024"]
  /\ JS.split "/" "20240102" = ["20240102"]
  /\ JS.split "/" "1/2/3/4" = ["1"; "2"; "3"; "4"].
Proof. repeat split. Qed.

Example Date_examples :
  JS.Date_of_string "1970-01-01" = Some 0
  /\ JS.Date_of_string "2024-01-01" = Some 1704067200000
  /\ JS.Date_of_string "undefined-01-2024" = None
  /\ JS.toISOString 1704067200000 = "2024-01-01T00:00:00.000Z"
  /\ JS.getDay 0 1704067200000 = 1
  /\ JS.getDay (-300) 1704067200000 = 0
  /\ JS.getDate (-300) 1704067200000 = 31
  /\ JS.toISOString (JS.setDate (-300) 1704067200000 25) = "2023-12-26T00:00:00.000Z".
Proof. repeat split. Qed.

Example normalize_row_examples :
  map normalize_row sample_rows
  = [ Pushed {| date := "2024-01-02"; amount := 12.5;
                description := "COFFEE BAR"; category := "Restaurants" |};
      Skipped;
      Pushed {| date := "2024-01-01"; amount := -30;
                description := "Unknown"; category := "Gas" |};
      Pushed {| date := "2024-01-02"; amount := 12.5;
                description := "COFFEE BAR"; category := "Restaurants" |} ].
Proof. reflexivity. Qed.

Example parseCSV_example :
  parseCSV JS.compare_code_units sample_rows []
  = [ {| date := "2024-01-01"; amount := -30;
         description := "Unknown"; category := "Gas" |};
      {| date := "2024-01-02"; amount := 12.5;
         description := "COFFEE BAR"; category := "Restaurants" |} ].
Proof. reflexivity. Qed.

Example getCategoryColor_examples :
  getCategoryColor "Uncategorized" = Css "#6b7280"
  /\ getCategoryColor "Coffee" = Css "hsl(164, 70%, 50%)"
  /\ category_hash "Coffee" = 2023803884
  /\ getCategoryColor "toString" = PrototypeMember "toString".
Proof. repeat split. Qed.

Example iso_date_of_day_2024 :
  iso_date_of_day 19723 = "2024-01-01"
  /\ iso_date_of_day 20088 = "2024-12-31"
  /\ JS.WeekDay (19723 * JS.msPerDay) = 1.
Proof. repeat split. Qed.

(* ===================================================================== *)
(** ** Strict equality of numbers                                         *)
(* ===================================================================== *)

Lemma SFeqb_eq_class (a b : spec_float) :
  SFeqb a b = true <-> eq_class a = eq_class b /\ eq_class a <> None.
Proof.
  unfold SFeqb.
  destruct a as [sa|sa| |sa ma ea], b as [sb|sb| |sb mb eb]; simpl;
    try destruct sa; try destruct sb; simpl;
    try (split; [discriminate | intros [? ?]; congruence]);
    try (split; [intros _; split; congruence | reflexivity]).
  all: destruct (Z.compare_spec ea eb) as [He|He|He];
    try (split; [discriminate | intros [E _]; injection E; lia]).
  all: subst eb; rewrite Pos.compare_cont_spec; simpl;
    destruct (Pos.compare_spec ma mb) as [Hm|Hm|Hm]; simpl;
    try (split; [discriminate | intros [E _]; injection E; lia]).
  all: subst mb; split; [intros _; split; congruence | reflexivity].
Qed.

Lemma strict_eq_sym (a b : JS.number) : JS.strict_eq a b = JS.strict_eq b a.
Proof.
  unfold JS.strict_eq. rewrite !FloatAxioms.eqb_spec.
  apply eq_true_iff_eq. rewrite !SFeqb_eq_class.
  split; intros [E N]; split; congruence.
Qed.

Lemma strict_eq_trans (a b c : JS.number) :
  JS.strict_eq a b = true -> JS.strict_eq b c = true -> JS.strict_eq a c = true.
Proof.
  unfold JS.strict_eq. rewrite !FloatAxioms.eqb_spec, !SFeqb_eq_class.
  intros [E1 N1] [E2 N2]. split; congruence.
Qed.

Lemma strict_eq_refl (a : JS.number) :
  JS.isNaN a = false -> JS.strict_eq a a = true.
Proof.
  unfold JS.isNaN, JS.strict_eq, is_nan. intros H.
  now apply negb_false_iff in H.
Qed.

Lemma strict_eq_not_NaN (a b : JS.number) :
  JS.strict_eq a b = true -> JS.isNaN a = false.
Proof.
  intros H. unfold JS.isNaN, is_nan. apply negb_false_iff.
  apply (strict_eq_trans a b a); [assumption | now rewrite strict_eq_sym].
Qed.

(* ===================================================================== *)
(** ** Sums of finite numbers                                             *)
(* ===================================================================== *)

Lemma digits2_pos_size (p : positive) : digits2_pos p = Pos.size p.
Proof. induction p; simpl; congruence. Qed.

Lemma digits2_pos_le (p : positive) : 2 ^ (Zpos (digits2_pos p) - 1) <= Zpos p.
Proof.
  rewrite digits2_pos_size. pose proof (Pos.size_le p) as H.
  apply Pos2Z.pos_le_pos in H. rewrite Pos2Z.inj_pow in H.
  replace (Zpos (Pos.size p)) with (Zpos (Pos.size p) - 1 + 1) in H by lia.
  rewrite Z.pow_add_r in H by lia. lia.
Qed.

Lemma shr_1_half (r : shr_record) : 0 <= shr_m r -> shr_m (shr_1 r) = shr_m r / 2.
Proof.
  destruct r as [m b s]. simpl. intros H.
  destruct m as [|[p|p|]|p]; simpl; try lia; try reflexivity.
  - rewrite Pos2Z.inj_xI. apply Z.div_unique with (r := 1); lia.
  - rewrite Pos2Z.inj_xO. apply Z.div_unique with (r := 0); lia.
Qed.

Lemma iter_shr_1 (p : positive) (r : shr_record) :
  0 <= shr_m r -> shr_m (SpecFloat.iter_pos shr_1 p r) = shr_m r / 2 ^ Zpos p.
Proof.
  revert r. induction p as [p IH|p IH|]; intros r H; simpl SpecFloat.iter_pos.
  - assert (0 <= shr_m (shr_1 r)) as H1
      by (rewrite shr_1_half by assumption; apply Z.div_pos; lia).
    assert (0 <= shr_m (SpecFloat.iter_pos shr_1 p (shr_1 r))) as H2
      by (rewrite IH by assumption; apply Z.div_pos; lia).
    rewrite IH, IH, shr_1_half by assumption.
    rewrite !Z.div_div by lia. f_equal.
    assert (2 ^ Zpos p~1 = 2 * (2 ^ Zpos p * 2 ^ Zpos p)) as ->; [| ring].
    rewrite <- Z.pow_add_r, <- Z.pow_succ_r by lia. f_equal. lia.
  - assert (0 <= shr_m (SpecFloat.iter_pos shr_1 p r)) as H2
      by (rewrite IH by assumption; apply Z.div_pos; lia).
    rewrite IH, IH by assumption.
    rewrite !Z.div_div by lia. f_equal.
    rewrite <- Z.pow_add_r by lia. f_equal. lia.
  - rewrite shr_1_half by assumption. reflexivity.
Qed.

Lemma shr_record_of_loc_m (m : Z) (l : location) : shr_m (shr_record_of_loc m l) = m.
Proof. destruct l as [|[]]; reflexivity. Qed.

(** Above the least exponent a shift to the format keeps a positive
    mantissa positive. *)
Lemma shr_fexp_positive (m e : Z) (l : location) :
  0 < m -> SpecFloat.emin prec emax <= e ->
  0 < shr_m (fst (shr_fexp prec emax m e l))
  /\ SpecFloat.emin prec emax <= snd (shr_fexp prec emax m e l).
Proof.
  intros Hm He. unfold shr_fexp, shr.
  destruct m as [|p|p]; try lia.
  unfold Zdigits2, fexp.
  pose proof (digits2_pos_le p) as Hd.
  set (d := Zpos (digits2_pos p)) in *.
  destruct (Z.max (d + e - prec) (SpecFloat.emin prec emax) - e) as [|n|n] eqn:En; simpl fst; simpl snd.
  - rewrite shr_record_of_loc_m. lia.
  - rewrite iter_shr_1 by (rewrite shr_record_of_loc_m; lia).
    rewrite shr_record_of_loc_m.
    assert (Zpos n = d - prec) as Hn by lia.
    split; [| lia].
    apply Z.div_str_pos. split; [lia |].
    eapply Z.le_trans; [| exact Hd].
    apply Z.pow_le_mono_r; [lia |]. rewrite Hn. unfold prec. lia.
  - rewrite shr_record_of_loc_m. lia.
Qed.

Lemma round_nearest_even_positive (m : Z) (l : location) :
  0 < m -> 0 < round_nearest_even m l.
Proof.
  intros H. destruct l as [|[]]; simpl; try lia.
  destruct (Z.even m); lia.
Qed.

Lemma binary_round_aux_plain (sx : bool) (m : positive) (e : Z) (l : location) :
  SpecFloat.emin prec emax <= e ->
  exists s' , binary_round_aux prec emax sx (Zpos m) e l = S754_infinity s'
  \/ exists m' e', binary_round_aux prec emax sx (Zpos m) e l = S754_finite s' m' e'.
Proof.
  intros He. unfold binary_round_aux.
  destruct (shr_fexp_positive (Zpos m) e l ltac:(lia) He) as [H1 H1e].
  destruct (shr_fexp prec emax (Zpos m) e l) as [mrs' e'].
  simpl fst in H1. simpl snd in H1e.
  pose proof (round_nearest_even_positive (shr_m mrs') (loc_of_shr_record mrs') H1) as H2.
  destruct (shr_fexp_positive _ e' loc_Exact H2 H1e) as [H3 _].
  destruct (shr_fexp prec emax _ e' loc_Exact) as [mrs'' e''].
  simpl fst in H3. destruct (shr_m mrs'') as [|q|q]; try lia.
  exists sx. destruct (e'' <=? emax - prec); eauto.
Qed.

Lemma binary_normalize_plain (m e : Z) :
  SpecFloat.emin prec emax <= e -> sf_plain (binary_normalize prec emax m e false).
Proof.
  intros He. unfold binary_normalize, binary_round, shl_align.
  destruct m as [|p|p].
  - split; discriminate.
  - set (e' := fexp prec emax (Zpos (digits2_pos p) + e)).
    assert (SpecFloat.emin prec emax <= e') by (unfold e', fexp; lia).
    destruct (e' - e) as [|d|d];
      [ destruct (binary_round_aux_plain false p e loc_Exact He) as (s' & [E|(m' & e0 & E)])
      | destruct (binary_round_aux_plain false p e loc_Exact He) as (s' & [E|(m' & e0 & E)])
      | destruct (binary_round_aux_plain false (Pos.iter xO p d) e' loc_Exact ltac:(assumption))
          as (s' & [E|(m' & e0 & E)]) ];
      rewrite E; split; discriminate.
  - set (e' := fexp prec emax (Zpos (digits2_pos p) + e)).
    assert (SpecFloat.emin prec emax <= e') by (unfold e', fexp; lia).
    destruct (e' - e) as [|d|d];
      [ destruct (binary_round_aux_plain true p e loc_Exact He) as (s' & [E|(m' & e0 & E)])
      | destruct (binary_round_aux_plain true p e loc_Exact He) as (s' & [E|(m' & e0 & E)])
      | destruct (binary_round_aux_plain true (Pos.iter xO p d) e' loc_Exact ltac:(assumption))
          as (s' & [E|(m' & e0 & E)]) ];
      rewrite E; split; discriminate.
Qed.

Lemma valid_binary_emin (s : bool) (m : positive) (e : Z) :
  valid_binary (S754_finite s m e) = true -> SpecFloat.emin prec emax <= e.
Proof.
  simpl. unfold bounded, canonical_mantissa, fexp.
  rewrite andb_true_iff, Z.eqb_eq. lia.
Qed.

(** Adding a finite number to a number other than [-0] gives a number
    other than [-0]. *)
Lemma SFadd_plain (x a : spec_float) :
  valid_binary x = true -> valid_binary a = true ->
  sf_plain x -> sf_finite a -> sf_plain (SF64add x a).
Proof.
  intros Vx Va [Hn Hz] Ha. unfold SF64add, SFadd.
  destruct x as [sx|sx| |sx mx ex], a as [sa|sa| |sa ma ea];
    try contradiction; try congruence; try (split; discriminate).
  - destruct sx, sa; try congruence; split; discriminate.
  - apply binary_normalize_plain.
    apply valid_binary_emin in Vx, Va. lia.
Qed.

Lemma isNaN_spec (x : JS.number) : JS.isNaN x = true <-> Prim2SF x = S754_nan.
Proof.
  unfold JS.isNaN, is_nan. rewrite negb_true_iff, <- not_true_iff_false.
  rewrite FloatAxioms.eqb_spec, SFeqb_eq_class.
  destruct (Prim2SF x); simpl; split; try congruence; try tauto.
  all: intros H; exfalso; apply H; split; congruence.
Qed.

Lemma is_finite_spec (x : JS.number) : is_finite x = true -> sf_finite (Prim2SF x).
Proof.
  unfold is_finite, is_infinity. rewrite negb_true_iff, orb_false_iff.
  intros [Hn Hi]. fold (JS.isNaN x) in Hn.
  rewrite FloatAxioms.eqb_spec, abs_spec in Hi.
  destruct (Prim2SF x) eqn:E; simpl; try exact I.
  - discriminate Hi.
  - apply not_true_iff_false in Hn. apply Hn. now apply isNaN_spec.
Qed.

Lemma plain_spec (x : JS.number) : sf_plain (Prim2SF x) -> JS.or_zero (Some x) = x.
Proof.
  intros [Hn Hz]. unfold JS.or_zero, JS.truthy.
  destruct (is_nan x) eqn:En.
  { exfalso. apply Hn. now apply isNaN_spec. }
  simpl. destruct (x =? 0)%float eqn:E0; simpl; [| reflexivity].
  rewrite FloatAxioms.eqb_spec in E0. apply SFeqb_eq_class in E0 as [E0 _].
  apply Prim2SF_inj. change (Prim2SF 0) with (S754_zero false) in *.
  destruct (Prim2SF x) as [[]| | |]; simpl in E0; congruence.
Qed.

Lemma add_plain (x a : JS.number) :
  sf_plain (Prim2SF x) -> is_finite a = true -> sf_plain (Prim2SF (x + a)).
Proof.
  intros Hx Ha. rewrite add_spec.
  apply SFadd_plain; auto using Prim2SF_valid, is_finite_spec.
Qed.

(* ===================================================================== *)
(** ** findIndex and the duplicate filter                                 *)
(* ===================================================================== *)

Section FirstOccurrence.

Context {A : Type}.
Variable p : A -> bool.

Lemma findIndex_from_range (l : list A) (i : Z) :
  JS.findIndex_from p l i = -1
  \/ i <= JS.findIndex_from p l i < i + Z.of_nat (length l).
Proof.
  revert i. induction l as [|x l IH]; intros i; simpl.
  - now left.
  - destruct (p x).
    + right. lia.
    + destruct (IH (i + 1)) as [E|E]; [now left | right; lia].
Qed.

Lemma findIndex_from_skip (pre l : list A) (i : Z) :
  existsb p pre = false ->
  JS.findIndex_from p (pre ++ l) i
  = JS.findIndex_from p l (i + Z.of_nat (length pre)).
Proof.
  revert i. induction pre as [|y pre IH]; intros i H; simpl in *.
  - f_equal. lia.
  - apply orb_false_iff in H as [Hy Hpre]. rewrite Hy, IH by assumption.
    f_equal. lia.
Qed.

Lemma findIndex_from_early (pre l : list A) (i : Z) :
  existsb p pre = true ->
  i <= JS.findIndex_from p (pre ++ l) i < i + Z.of_nat (length pre).
Proof.
  revert i. induction pre as [|y pre IH]; intros i H; simpl in *.
  - discriminate.
  - destruct (p y); [lia |]. simpl in H. specialize (IH (i + 1) H). lia.
Qed.

(** The index of [x] is the first index of its key exactly when nothing
    before it satisfies the test and [x] itself does. *)
Lemma findIndex_at (pre post : list A) (x : A) :
  (Z.of_nat (length pre) =? JS.findIndex p (pre ++ x :: post))
  = negb (existsb p pre) && p x.
Proof.
  unfold JS.findIndex. destruct (existsb p pre) eqn:E; simpl.
  - pose proof (findIndex_from_early pre (x :: post) 0 E).
    apply Z.eqb_neq. lia.
  - rewrite findIndex_from_skip by assumption. simpl.
    destruct (p x); [apply Z.eqb_eq; lia |].
    apply Z.eqb_neq.
    destruct (findIndex_from_range post (0 + Z.of_nat (length pre) + 1)); lia.
Qed.

End FirstOccurrence.

Section KeepFirst.

Context {A : Type}.
Variable keq : A -> A -> bool.

Lemma first_of_key_exists (seen : list A) (x : A) :
  first_of_key keq seen x
  = negb (existsb (fun t => keq t x) seen) && keq x x.
Proof.
  unfold first_of_key. f_equal.
  induction seen as [|y seen IH]; simpl; [reflexivity |].
  rewrite IH. now destruct (keq y x).
Qed.

(** The filter of the source, element by element. *)
Lemma filter_indexed_keep_first (l : list A) :
  JS.filter_indexed
    (fun x i self => i =? JS.findIndex (fun t => keq t x) self) l
  = keep_first keq [] l.
Proof.
  unfold JS.filter_indexed.
  change l with ([] ++ l)%list at 1. change 0 with (Z.of_nat (length (@nil A))).
  generalize (@nil A) as seen.
  induction l as [|x l IH]; intros seen; simpl; [reflexivity |].
  rewrite findIndex_at, <- first_of_key_exists.
  replace (seen ++ x :: l)%list with ((seen ++ [x]) ++ l)%list
    by now rewrite <- List.app_assoc.
  replace (Z.of_nat (length seen) + 1) with (Z.of_nat (length (seen ++ [x])))
    by (rewrite List.length_app; simpl; lia).
  now rewrite IH.
Qed.

Lemma keep_first_app (seen l1 l2 : list A) :
  keep_first keq seen (l1 ++ l2)
  = (keep_first keq seen l1 ++ keep_first keq (seen ++ l1) l2)%list.
Proof.
  revert seen. induction l1 as [|x l1 IH]; intros seen; simpl.
  - now rewrite List.app_nil_r.
  - rewrite IH, <- List.app_assoc. simpl. now destruct (first_of_key keq seen x).
Qed.

Lemma keep_first_In (seen l : list A) (x : A) :
  In x (keep_first keq seen l) -> In x l.
Proof.
  revert seen. induction l as [|y l IH]; intros seen; simpl; [tauto |].
  destruct (first_of_key keq seen y); simpl; intros H.
  - destruct H; eauto.
  - eauto.
Qed.

(** What is kept has its own key and the key of nothing seen before. *)
Lemma keep_first_Forall (seen l : list A) :
  Forall (fun x => keq x x = true /\ Forall (fun y => keq y x = false) seen)
    (keep_first keq seen l).
Proof.
  revert seen. induction l as [|x l IH]; intros seen; simpl; [constructor |].
  assert (Forall (fun z => keq z z = true /\ Forall (fun y => keq y z = false) seen)
            (keep_first keq (seen ++ [x]) l)) as Hrest.
  { eapply List.Forall_impl; [| apply IH]. simpl. intros z [Hz Hs]. split; [assumption |].
    apply List.Forall_app in Hs. tauto. }
  destruct (first_of_key keq seen x) eqn:E; [| assumption].
  constructor; [| assumption].
  unfold first_of_key in E. apply andb_true_iff in E as [E1 E2]. split; [assumption |].
  apply List.Forall_forall. intros y Hy. rewrite List.forallb_forall in E1.
  specialize (E1 y Hy). now apply negb_true_iff in E1.
Qed.

Lemma keep_first_distinct (seen l : list A) :
  ForallOrdPairs (fun a b => keq a b = false) (keep_first keq seen l).
Proof.
  revert seen. induction l as [|x l IH]; intros seen; simpl; [constructor |].
  destruct (first_of_key keq seen x); [| apply IH].
  constructor; [| apply IH].
  eapply List.Forall_impl; [| apply keep_first_Forall]. simpl. intros z [_ Hs].
  apply List.Forall_app in Hs as [_ Hx]. now inversion Hx.
Qed.

(** A list without two elements of one key, all with a key of their own,
    passes the filter whole. *)
Lemma keep_first_all (seen l : list A) :
  Forall (fun x => keq x x = true /\ Forall (fun y => keq y x = false) seen) l ->
  ForallOrdPairs (fun a b => keq a b = false) l ->
  keep_first keq seen l = l.
Proof.
  revert seen. induction l as [|x l IH]; intros seen Hl Hd; simpl; [reflexivity |].
  inversion Hl as [|? ? [Hx Hs] Hl']; subst. inversion Hd as [|? ? Hxl Hd']; subst.
  assert (first_of_key keq seen x = true) as ->.
  { unfold first_of_key. rewrite Hx, andb_true_r. apply List.forallb_forall.
    intros y Hy. rewrite List.Forall_forall in Hs. now rewrite (Hs y Hy). }
  f_equal. apply IH; [| assumption].
  rewrite List.Forall_forall in *. intros z Hz. destruct (Hl' z Hz) as [Hzz Hzs].
  split; [assumption |]. apply List.Forall_forall. intros y Hy.
  apply List.in_app_or in Hy as [Hy|[<-|[]]]; [| now apply Hxl].
  rewrite List.Forall_forall in Hzs. now apply Hzs.
Qed.

(** Nothing is kept of elements whose key is already there. *)
Lemma keep_first_none (seen l : list A) :
  Forall (fun x => exists y, In y seen /\ keq y x = true) l ->
  keep_first keq seen l = [].
Proof.
  revert seen. induction l as [|x l IH]; intros seen Hl; simpl; [reflexivity |].
  inversion Hl as [|? ? (y & Hy & Hyx) Hl']; subst.
  assert (first_of_key keq seen x = false) as ->.
  { rewrite first_of_key_exists. apply andb_false_iff. left.
    apply negb_false_iff, List.existsb_exists. eauto. }
  apply IH. eapply List.Forall_impl; [| exact Hl']. simpl.
  intros z (w & Hw & Hwz). exists w. split; [apply List.in_or_app; now left | assumption].
Qed.

Hypothesis keq_sym : forall a b, keq a b = keq b a.
Hypothesis keq_trans : forall a b c, keq a b = true -> keq b c = true -> keq a c = true.

(** Every element with a key of its own has its key among what was seen
    or among what is kept. *)
Lemma keep_first_covers (seen l : list A) (x : A) :
  In x l -> keq x x = true ->
  exists r, (In r seen \/ In r (keep_first keq seen l)) /\ keq r x = true.
Proof.
  revert seen. induction l as [|a l IH]; intros seen Hin Hx; simpl in *; [tauto |].
  assert ((exists r, (In r seen \/ (first_of_key keq seen a = true /\ r = a))
                     /\ keq r a = true) \/ keq a a = false) as Ha.
  { destruct (first_of_key keq seen a) eqn:E.
    - left. exists a. split; [now right |].
      unfold first_of_key in E. now apply andb_true_iff in E.
    - rewrite first_of_key_exists in E. apply andb_false_iff in E as [E|E].
      + apply negb_false_iff, List.existsb_exists in E as (y & Hy & Hya).
        left. exists y. tauto.
      + now right. }
  destruct Hin as [->|Hin].
  - destruct Ha as [(r & [Hr|[E ->]] & Hra)|Ha]; [| | congruence].
    + exists r. tauto.
    + exists x. rewrite E. simpl. tauto.
  - destruct (IH (seen ++ [a])%list Hin Hx) as (r & [Hr|Hr] & Hrx).
    + apply List.in_app_or in Hr as [Hr|[<-|[]]]; [exists r; tauto |].
      destruct Ha as [(r & [Hr|[E ->]] & Hra)|Ha].
      * exists r. split; [tauto | eauto].
      * exists a. rewrite E. simpl. tauto.
      * assert (keq a a = true); [| congruence].
        apply (keq_trans a x a); [assumption | now rewrite keq_sym].
    + exists r. split; [| assumption]. right.
      destruct (first_of_key keq seen a); simpl; tauto.
Qed.

End KeepFirst.

(* ===================================================================== *)
(** ** The stable sort                                                    *)
(* ===================================================================== *)

Section SortBy.

Context {A : Type}.
Variable cmp : A -> A -> Z.

Let le (a b : A) : Prop := cmp a b <= 0.

Lemma insert_by_In (x y : A) (l : list A) :
  In y (JS.insert_by cmp x l) <-> y = x \/ In y l.
Proof.
  induction l as [|z l IH]; simpl.
  - intuition congruence.
  - destruct (cmp x z <=? 0); simpl; rewrite ?IH; intuition congruence.
Qed.

Lemma sort_In (y : A) (l : list A) : In y (JS.sort cmp l) <-> In y l.
Proof.
  induction l as [|x l IH]; simpl; [tauto |].
  rewrite insert_by_In, IH. intuition congruence.
Qed.

Lemma sort_Forall (P : A -> Prop) (l : list A) :
  Forall P l -> Forall P (JS.sort cmp l).
Proof.
  rewrite !List.Forall_forall. intros H y Hy. apply H. now apply sort_In.
Qed.

Lemma sort_length (l : list A) : length (JS.sort cmp l) = length l.
Proof.
  induction l as [|x l IH]; simpl; [reflexivity |].
  rewrite <- IH. generalize (JS.sort cmp l) as s. clear.
  induction s as [|z s IHs]; simpl; [reflexivity |].
  destruct (cmp x z <=? 0); simpl; congruence.
Qed.

(** A relation that holds between every element and every later one, and
    is symmetric, survives the sort. *)
Lemma insert_by_pairs (R : A -> A -> Prop) (x : A) (l : list A) :
  (forall a b, R a b -> R b a) ->
  Forall (R x) l -> ForallOrdPairs R l -> ForallOrdPairs R (JS.insert_by cmp x l).
Proof.
  intros Rsym. induction l as [|z l IH]; intros Hx Hl; simpl.
  - constructor; [constructor | constructor].
  - destruct (cmp x z <=? 0); [now constructor |].
    inversion Hx; subst. inversion Hl; subst.
    constructor; [| now apply IH].
    apply List.Forall_forall. intros y Hy. apply insert_by_In in Hy as [->|Hy].
    + now apply Rsym.
    + rewrite List.Forall_forall in *. auto.
Qed.

Lemma sort_pairs (R : A -> A -> Prop) (l : list A) :
  (forall a b, R a b -> R b a) ->
  ForallOrdPairs R l -> ForallOrdPairs R (JS.sort cmp l).
Proof.
  intros Rsym. induction l as [|x l IH]; intros Hl; simpl; [constructor |].
  inversion Hl; subst. apply insert_by_pairs; auto.
  now apply sort_Forall.
Qed.

(** A sorted list is left as it is: the sort is stable. *)
Lemma sort_Sorted_id (l : list A) : Sorted le l -> JS.sort cmp l = l.
Proof.
  induction 1 as [|x l Hl IH Hx]; simpl; [reflexivity |].
  rewrite IH. destruct Hx as [|y l Hxy]; simpl; [reflexivity |].
  unfold le in Hxy. now apply Z.leb_le in Hxy as ->.
Qed.

(** The comparator is consistent: of two elements one does not exceed
    the other. *)
Hypothesis cmp_total : forall a b, 0 < cmp a b -> cmp b a <= 0.

Lemma insert_by_Sorted (x : A) (l : list A) :
  Sorted le l -> Sorted le (JS.insert_by cmp x l).
Proof.
  induction 1 as [|z l Hl IH Hz]; simpl.
  - repeat constructor.
  - destruct (cmp x z <=? 0) eqn:E.
    + apply Z.leb_le in E. repeat constructor; assumption.
    + apply Z.leb_gt in E. constructor; [assumption |].
      destruct Hz as [|y l Hzy]; simpl.
      * constructor. now apply cmp_total.
      * destruct (cmp x y <=? 0); constructor; [now apply cmp_total | assumption].
Qed.

Lemma sort_Sorted (l : list A) : Sorted le (JS.sort cmp l).
Proof.
  induction l as [|x l IH]; simpl; [constructor | now apply insert_by_Sorted].
Qed.

Lemma sort_idempotent (l : list A) :
  JS.sort cmp (JS.sort cmp l) = JS.sort cmp l.
Proof. apply sort_Sorted_id, sort_Sorted. Qed.

End SortBy.

(* ===================================================================== *)
(** ** The key of a transaction                                           *)
(* ===================================================================== *)

Lemma same_key_sym (a b : Transaction) : same_key a b = same_key b a.
Proof.
  unfold same_key.
  now rewrite (String.eqb_sym (date a)), (strict_eq_sym (amount a)),
    (String.eqb_sym (description a)), (String.eqb_sym (category a)).
Qed.

Lemma same_key_true (a b : Transaction) :
  same_key a b = true <->
  date a = date b /\ JS.strict_eq (amount a) (amount b) = true
  /\ description a = description b /\ category a = category b.
Proof.
  unfold same_key. rewrite !andb_true_iff, !String.eqb_eq. tauto.
Qed.

Lemma same_key_trans (a b c : Transaction) :
  same_key a b = true -> same_key b c = true -> same_key a c = true.
Proof.
  rewrite !same_key_true. intros (D1 & A1 & E1 & C1) (D2 & A2 & E2 & C2).
  repeat split; try congruence. eapply strict_eq_trans; eassumption.
Qed.

Lemma same_key_refl (a : Transaction) :
  same_key a a = true <-> JS.isNaN (amount a) = false.
Proof.
  rewrite same_key_true. split.
  - intros (_ & H & _). eapply strict_eq_not_NaN; eassumption.
  - intros H. repeat split. now apply strict_eq_refl.
Qed.

(* ===================================================================== *)
(** ** The record normalizer                                              *)
(* ===================================================================== *)

Lemma normalize_row_not_NaN (row : RawRow) (t : Transaction) :
  normalize_row row = Pushed t -> JS.isNaN (amount t) = false.
Proof.
  unfold normalize_row.
  destruct (field_truthy (Transaction_Date row)) as [dateStr|]; [| discriminate].
  destruct (field_truthy (Amount row)) as [amountStr|]; [| discriminate].
  destruct (JS.split "/" dateStr) as [|month [|day rest]]; try discriminate.
  destruct (JS.isNaN (- JS.parseFloat amountStr)) eqn:E; simpl; [discriminate |].
  intros [= <-]. exact E.
Qed.

Lemma forEach_row_not_NaN (data : list RawRow) (acc new : list Transaction) :
  forEach_row data acc = Some new ->
  Forall (fun t => JS.isNaN (amount t) = false) acc ->
  Forall (fun t => JS.isNaN (amount t) = false) new.
Proof.
  revert acc. induction data as [|row data IH]; intros acc; simpl.
  - now intros [= <-].
  - destruct (normalize_row row) as [t| |] eqn:E; [| apply IH | discriminate].
    intros H Hacc. apply (IH _ H). apply List.Forall_app. split; [assumption |].
    repeat constructor. eapply normalize_row_not_NaN; eassumption.
Qed.

(* ===================================================================== *)
(** ** The store                                                          *)
(* ===================================================================== *)

Section StoreProperties.

Variable localeCompare : string -> string -> Z.

Let by_date (a b : Transaction) : Z := localeCompare (date a) (date b).

Lemma merge_keep_first (prev new : list Transaction) :
  merge localeCompare prev new
  = JS.sort by_date (keep_first same_key [] (prev ++ new)).
Proof. unfold merge. now rewrite filter_indexed_keep_first. Qed.

(** [localeCompare] defines a total ordering of the strings. *)
Hypothesis localeCompare_total :
  forall a b, 0 < localeCompare a b -> localeCompare b a <= 0.

Lemma merge_ok (prev new : list Transaction) :
  store_ok localeCompare (merge localeCompare prev new).
Proof.
  rewrite merge_keep_first. repeat split.
  - apply sort_Forall.
    eapply List.Forall_impl; [| apply keep_first_Forall]. simpl.
    intros t [H _]. now apply same_key_refl.
  - apply sort_pairs.
    + intros a b. now rewrite same_key_sym.
    + apply keep_first_distinct.
  - apply sort_Sorted. intros a b. apply localeCompare_total.
Qed.

Lemma parseCSV_ok (data : list RawRow) (prev : list Transaction) :
  store_ok localeCompare prev -> store_ok localeCompare (parseCSV localeCompare data prev).
Proof.
  intros H. unfold parseCSV. destruct (forEach_row data []); [apply merge_ok | exact H].
Qed.

Lemma reachable_ok (s : list Transaction) :
  reachable localeCompare s -> store_ok localeCompare s.
Proof.
  induction 1 as [|data prev _ IH|prev _ _].
  - repeat split; constructor.
  - now apply parseCSV_ok.
  - repeat split; constructor.
Qed.

(** Merging rows that were merged before changes nothing. *)
Lemma merge_again (prev new : list Transaction) :
  Forall (fun t => JS.isNaN (amount t) = false) new ->
  merge localeCompare (merge localeCompare prev new) new
  = merge localeCompare prev new.
Proof.
  intros Hnew.
  destruct (merge_ok prev new) as (Hv & Hd & Hs).
  set (s1 := merge localeCompare prev new) in *.
  rewrite (merge_keep_first s1 new), keep_first_app. simpl.
  rewrite keep_first_all, keep_first_none, List.app_nil_r.
  - now apply sort_Sorted_id.
  - rewrite List.Forall_forall in *. intros x Hx.
    destruct (keep_first_covers same_key same_key_sym same_key_trans [] (prev ++ new) x)
      as (r & [[]|Hr] & Hrx).
    + apply List.in_or_app. now right.
    + apply same_key_refl. now apply Hnew.
    + exists r. split; [| assumption].
      subst s1. rewrite merge_keep_first. now apply sort_In.
  - eapply List.Forall_impl; [| exact Hv]. simpl. intros t Ht.
    split; [now apply same_key_refl | constructor].
  - exact Hd.
Qed.

Lemma parseCSV_again (data : list RawRow) (prev : list Transaction) :
  parseCSV localeCompare data (parseCSV localeCompare data prev)
  = parseCSV localeCompare data prev.
Proof.
  unfold parseCSV. destruct (forEach_row data []) as [new|] eqn:E; [| reflexivity].
  apply merge_again. eapply forEach_row_not_NaN; [exact E | constructor].
Qed.

(** A store without two records of one key, and without NaN, is a prefix
    of what the filter keeps. *)
Lemma merge_keeps (prev new : list Transaction) (t : Transaction) :
  store_ok localeCompare prev -> In t prev -> In t (merge localeCompare prev new).
Proof.
  intros (Hv & Hd & _) Ht. rewrite merge_keep_first. apply sort_In.
  rewrite keep_first_app. apply List.in_or_app. left.
  rewrite keep_first_all; [assumption | | exact Hd].
  eapply List.Forall_impl; [| exact Hv]. simpl. intros x Hx.
  split; [now apply same_key_refl | constructor].
Qed.

End StoreProperties.

(* ===================================================================== *)
(** ** The order of the code units                                        *)
(* ===================================================================== *)

Lemma ascii_compare_trans (a b c : ascii) (o : comparison) :
  Ascii.compare a b = o -> Ascii.compare b c = o -> Ascii.compare a c = o.
Proof.
  unfold Ascii.compare. destruct o.
  - rewrite !N.compare_eq_iff. congruence.
  - rewrite !N.compare_lt_iff. lia.
  - rewrite !N.compare_gt_iff. lia.
Qed.

Lemma string_compare_refl (a : string) : String.compare a a = Eq.
Proof.
  induction a as [|c a IH]; simpl; [reflexivity |].
  unfold Ascii.compare. now rewrite N.compare_refl.
Qed.

Lemma string_compare_lt_trans (a b c : string) :
  String.compare a b = Lt -> String.compare b c = Lt -> String.compare a c = Lt.
Proof.
  revert b c. induction a as [|x a IH]; intros [|y b] [|z c]; simpl;
    try discriminate; try reflexivity.
  destruct (Ascii.compare x y) eqn:Exy; try discriminate;
    destruct (Ascii.compare y z) eqn:Eyz; try discriminate; intros H1 H2.
  - apply Ascii.compare_eq_iff in Exy, Eyz. subst.
    unfold Ascii.compare. rewrite N.compare_refl. eauto.
  - apply Ascii.compare_eq_iff in Exy. subst. now rewrite Eyz.
  - apply Ascii.compare_eq_iff in Eyz. subst. now rewrite Exy.
  - now rewrite (ascii_compare_trans x y z Lt).
Qed.

Lemma compare_code_units_total (a b : string) :
  0 < JS.compare_code_units a b -> JS.compare_code_units b a <= 0.
Proof.
  unfold JS.compare_code_units. rewrite (String.compare_antisym b a).
  destruct (String.compare a b); simpl; lia.
Qed.

Lemma compare_code_units_le (a b : string) :
  JS.compare_code_units a b <= 0 <-> String.compare a b <> Gt.
Proof.
  unfold JS.compare_code_units. destruct (String.compare a b); split; try lia;
    try discriminate; congruence.
Qed.

Lemma compare_code_units_trans (a b c : string) :
  JS.compare_code_units a b <= 0 -> JS.compare_code_units b c <= 0 ->
  JS.compare_code_units a c <= 0.
Proof.
  rewrite !compare_code_units_le. intros H1 H2.
  destruct (String.compare a b) eqn:E1; [| | congruence].
  - apply String.compare_eq_iff in E1. now subst.
  - destruct (String.compare b c) eqn:E2; [| | congruence].
    + apply String.compare_eq_iff in E2. subst. now rewrite E1.
    + now rewrite (string_compare_lt_trans a b c).
Qed.

Lemma compare_code_units_leb (a b : string) :
  JS.compare_code_units a b <= 0 -> String.leb a b = true.
Proof.
  rewrite compare_code_units_le. unfold String.leb.
  now destruct (String.compare a b).
Qed.

(* ===================================================================== *)
(** ** The x-axis                                                         *)
(* ===================================================================== *)

Lemma distinct_from_spec (seen l : list string) :
  List.NoDup (JS.distinct_from seen l)
  /\ forall x, In x (JS.distinct_from seen l) <-> In x l /\ ~ In x seen.
Proof.
  revert seen. induction l as [|y l IH]; intros seen; simpl.
  - split; [constructor | tauto].
  - destruct (existsb (String.eqb y) seen) eqn:E.
    + destruct (IH seen) as [Hn Hi]. split; [assumption |].
      intros x. rewrite Hi. apply List.existsb_exists in E as (z & Hz & Hyz).
      apply String.eqb_eq in Hyz. subst z. intuition congruence.
    + destruct (IH (y :: seen)) as [Hn Hi]. split.
      * constructor; [| assumption]. rewrite Hi. simpl. tauto.
      * intros x. simpl. rewrite Hi. simpl.
        assert (~ In y seen) as Hy.
        { intros Hy. apply not_true_iff_false in E. apply E.
          apply List.existsb_exists. exists y. split; [assumption | apply String.eqb_refl]. }
        destruct (String.eqb_spec y x) as [->|Hne]; intuition congruence.
Qed.

Lemma insert_by_NoDup {A} (cmp : A -> A -> Z) (x : A) (l : list A) :
  ~ In x l -> List.NoDup l -> List.NoDup (JS.insert_by cmp x l).
Proof.
  induction l as [|y l IH]; simpl; intros Hx Hl.
  - now constructor.
  - destruct (cmp x y <=? 0); [now constructor |].
    inversion Hl; subst. constructor.
    + rewrite insert_by_In. intuition congruence.
    + apply IH; tauto.
Qed.

Lemma sort_NoDup {A} (cmp : A -> A -> Z) (l : list A) :
  List.NoDup l -> List.NoDup (JS.sort cmp l).
Proof.
  induction 1 as [|x l Hx Hl IH]; simpl; [constructor |].
  apply insert_by_NoDup; [| assumption]. now rewrite sort_In.
Qed.

Lemma allDates_In (transactions : list Transaction) (d : string) :
  In d (allDates transactions) <-> In d (map date transactions).
Proof.
  unfold allDates, JS.sort_default, JS.distinct. rewrite sort_In.
  destruct (distinct_from_spec [] (map date transactions)) as [_ H].
  rewrite H. simpl. tauto.
Qed.

(** The dates of the x-axis increase strictly. *)
Lemma allDates_increasing (transactions : list Transaction) :
  StronglySorted (fun a b => String.compare a b = Lt) (allDates transactions).
Proof.
  unfold allDates, JS.sort_default.
  set (l := JS.distinct (map date transactions)).
  assert (List.NoDup (JS.sort JS.compare_code_units l)) as Hn.
  { apply sort_NoDup, distinct_from_spec. }
  assert (StronglySorted (fun a b => JS.compare_code_units a b <= 0)
            (JS.sort JS.compare_code_units l)) as Hs.
  { apply Sorted_StronglySorted.
    - intros a b c. apply compare_code_units_trans.
    - apply sort_Sorted, compare_code_units_total. }
  induction Hs as [|a s Hs IH Ha]; [constructor |].
  inversion Hn; subst. constructor; [now apply IH |].
  rewrite List.Forall_forall in *. intros b Hb. specialize (Ha b Hb).
  apply compare_code_units_le in Ha.
  destruct (String.compare a b) eqn:E; [| reflexivity | congruence].
  apply String.compare_eq_iff in E. congruence.
Qed.

(** On a strictly increasing list, the dates up to one of its elements
    are the elements up to it. *)
Lemma filter_leb_prefix (pre rest : list string) (d : string) :
  StronglySorted (fun a b => String.compare a b = Lt) (pre ++ d :: rest) ->
  List.filter (fun d' => String.leb d' d) (pre ++ d :: rest) = (pre ++ [d])%list.
Proof.
  induction pre as [|x pre IH]; simpl; intros H.
  - unfold String.leb at 1. rewrite string_compare_refl. f_equal.
    inversion H as [|? ? _ Hd]; subst. clear H.
    induction rest as [|y rest IHr]; simpl; [reflexivity |].
    inversion Hd as [|? ? Hy Hd']; subst.
    unfold String.leb at 1. rewrite String.compare_antisym, Hy. simpl. auto.
  - inversion H as [|? ? Hs Hx]; subst.
    rewrite List.Forall_forall in Hx.
    unfold String.leb at 1. rewrite (Hx d) by (apply List.in_or_app; simpl; tauto).
    f_equal. now apply IH.
Qed.

(* ===================================================================== *)
(** ** The daily map and the cumulative series                            *)
(* ===================================================================== *)

Lemma dailyMap_fold_lookup (transactions : list Transaction)
    (m : gmap string JS.number) (d : string) :
  fold_left
    (fun (m : gmap string JS.number) t =>
       <[date t := (JS.or_zero (m !! date t) + amount t)%float]> m)
    transactions m !! d
  = fold_left (fun v a => Some (JS.or_zero v + a)%float)
      (amounts_on transactions d) (m !! d).
Proof.
  revert m. unfold amounts_on.
  induction transactions as [|t transactions IH]; intros m; simpl; [reflexivity |].
  rewrite IH. destruct (String.eqb_spec (date t) d) as [<-|Hne]; simpl.
  - now rewrite lookup_insert_eq.
  - now rewrite lookup_insert_ne.
Qed.

Lemma or_zero_fold (l : list JS.number) (v : option JS.number) :
  Forall plain (running_sums l (JS.or_zero v)) ->
  JS.or_zero (fold_left (fun v a => Some (JS.or_zero v + a)%float) l v)
  = fold_left (fun s a => (s + a)%float) l (JS.or_zero v).
Proof.
  revert v. induction l as [|a l IH]; intros v; cbn [fold_left running_sums];
    [reflexivity |].
  intros H. inversion H as [|? ? Hp Hl]; subst. unfold plain in Hp.
  rewrite IH; rewrite Hp; [reflexivity | assumption].
Qed.

Lemma dailyMap_day_total (transactions : list Transaction) (d : string) :
  Forall plain (running_sums (amounts_on transactions d) 0%float) ->
  JS.or_zero (dailyMap transactions !! d) = day_total transactions d.
Proof.
  intros H. unfold dailyMap, day_total, sum_from_left.
  rewrite dailyMap_fold_lookup, lookup_empty. now apply or_zero_fold.
Qed.

Lemma sum_from_left_snoc (l : list JS.number) (a : JS.number) :
  sum_from_left (l ++ [a]) = (sum_from_left l + a)%float.
Proof. unfold sum_from_left. now rewrite fold_left_app. Qed.

Lemma cumulative_from_filter (dm : gmap string JS.number) (v : string -> JS.number)
    (pre rest : list string) :
  StronglySorted (fun a b => String.compare a b = Lt) (pre ++ rest) ->
  (forall d, In d rest -> JS.or_zero (dm !! d) = v d) ->
  cumulative_from dm rest (sum_from_left (map v pre))
  = map (fun d => sum_from_left
                    (map v (List.filter (fun d' => String.leb d' d) (pre ++ rest))))
      rest.
Proof.
  revert pre. induction rest as [|d rest IH]; intros pre Hs Hv; simpl; [reflexivity |].
  rewrite filter_leb_prefix by assumption.
  assert (sum_from_left (map v (pre ++ [d]))
          = (sum_from_left (map v pre) + v d)%float) as Hsnoc.
  { rewrite map_app. apply sum_from_left_snoc. }
  rewrite (Hv d) by (simpl; tauto). rewrite Hsnoc. f_equal.
  rewrite <- Hsnoc, IH.
  - apply map_ext. intros d'. now rewrite <- List.app_assoc.
  - now rewrite <- List.app_assoc.
  - intros d' Hd'. apply Hv. simpl. tauto.
Qed.

Lemma cumulative_data_totals (transactions : list Transaction) :
  plain_sums transactions ->
  cumulative_data transactions
  = map (total_on_or_before transactions) (allDates transactions).
Proof.
  intros H. unfold cumulative_data, total_on_or_before.
  apply (cumulative_from_filter (dailyMap transactions) (day_total transactions)
           [] (allDates transactions)).
  - apply allDates_increasing.
  - intros d Hd. apply dailyMap_day_total.
    unfold plain_sums in H. rewrite List.Forall_forall in H. now apply H.
Qed.

Lemma running_sums_plain (l : list JS.number) (s : JS.number) :
  sf_plain (Prim2SF s) -> Forall (fun a => is_finite a = true) l ->
  Forall plain (running_sums l s).
Proof.
  revert s. induction l as [|a l IH]; intros s Hs Hl; cbn [running_sums];
    [constructor |].
  inversion Hl as [|? ? Ha Hl']; subst.
  pose proof (add_plain s a Hs Ha) as Hsa.
  constructor; [now apply plain_spec | now apply IH].
Qed.

(** With finite amounts no running sum of a day is NaN or [-0]. *)
Lemma finite_plain_sums (transactions : list Transaction) :
  Forall (fun t => is_finite (amount t) = true) transactions ->
  plain_sums transactions.
Proof.
  intros H. unfold plain_sums. apply List.Forall_forall. intros d _.
  apply running_sums_plain; [split; discriminate |].
  unfold amounts_on. apply List.Forall_forall. intros a Ha.
  apply in_map_iff in Ha as (t & <- & Ht). apply filter_In in Ht as [Ht _].
  rewrite List.Forall_forall in H. now apply H.
Qed.

(* ===================================================================== *)
(** ** Strings                                                            *)
(* ===================================================================== *)

Lemma append_nil (b : string) : "" ++ b = b.
Proof. reflexivity. Qed.

Lemma append_cons (c : ascii) (a b : string) : String c a ++ b = String c (a ++ b).
Proof. reflexivity. Qed.

Lemma length_append (a b : string) :
  String.length (a ++ b) = (String.length a + String.length b)%nat.
Proof.
  induction a as [|c a IH]; rewrite ?append_nil, ?append_cons; simpl;
    [reflexivity | now rewrite IH].
Qed.

Lemma substring_all (s : string) : String.substring 0 (String.length s) s = s.
Proof. induction s as [|c s IH]; simpl; [reflexivity | now rewrite IH]. Qed.

Lemma substring_skip (p s : string) (k : nat) :
  String.substring (String.length p) k (p ++ s) = String.substring 0 k s.
Proof.
  induction p as [|c p IH]; rewrite ?append_nil, ?append_cons; simpl;
    [reflexivity | exact IH].
Qed.

Lemma substring_split (s : string) (a : nat) :
  (a <= String.length s)%nat ->
  s = String.substring 0 a s ++ String.substring a (String.length s - a) s.
Proof.
  revert a. induction s as [|c s IH]; intros [|a] H; simpl in *; try lia.
  - reflexivity.
  - now rewrite append_nil, substring_all.
  - rewrite append_cons. f_equal. apply IH. lia.
Qed.

Lemma substring_length (s : string) (n : nat) :
  (n <= String.length s)%nat -> String.length (String.substring 0 n s) = n.
Proof.
  revert n. induction s as [|c s IH]; intros [|n] H; simpl in *; try lia.
  f_equal. apply IH. lia.
Qed.

Lemma substring_prefix (s : string) (n : nat) :
  (n <= String.length s)%nat -> exists r, s = String.substring 0 n s ++ r.
Proof. intros H. eexists. now apply substring_split. Qed.

Lemma endsWith_spec (s suffix : string) :
  JS.endsWith s suffix = true <-> exists p, s = p ++ suffix.
Proof.
  unfold JS.endsWith. rewrite andb_true_iff, Nat.leb_le, String.eqb_eq. split.
  - intros [Hk E]. exists (String.substring 0 (String.length s - String.length suffix) s).
    pose proof (substring_split s (String.length s - String.length suffix) ltac:(lia)) as Hs.
    replace (String.length s - (String.length s - String.length suffix))%nat
      with (String.length suffix) in Hs by lia.
    now rewrite E in Hs.
  - intros [p ->]. rewrite length_append. split; [lia |].
    replace (String.length p + String.length suffix - String.length suffix)%nat
      with (String.length p) by lia.
    now rewrite substring_skip, substring_all.
Qed.

(* ===================================================================== *)
(** ** handleDrop                                                         *)
(* ===================================================================== *)

Lemma handleDrop_In (files : list File) (f : File) :
  In f (handleDrop files) <->
  In f files /\ ((exists p, name f = p ++ ".csv") \/ (exists p, name f = p ++ ".CSV")).
Proof.
  unfold handleDrop, is_csv. rewrite filter_In, orb_true_iff, !endsWith_spec.
  reflexivity.
Qed.

(* ===================================================================== *)
(** ** The category colors                                                *)
(* ===================================================================== *)

Lemma ToInt32_range (z : Z) : - 2 ^ 31 <= JS.ToInt32 z < 2 ^ 31.
Proof.
  unfold JS.ToInt32. pose proof (Z.mod_pos_bound z (2 ^ 32) ltac:(lia)).
  destruct (z mod 2 ^ 32 <? 2 ^ 31) eqn:E; [apply Z.ltb_lt in E | apply Z.ltb_ge in E]; lia.
Qed.

Lemma ToInt32_small (z : Z) : - 2 ^ 31 <= z < 2 ^ 31 -> JS.ToInt32 z = z.
Proof.
  intros H. unfold JS.ToInt32.
  destruct (Z.neg_nonneg_cases z) as [Hz|Hz].
  - replace (z mod 2 ^ 32) with (z + 2 ^ 32)
      by (apply Z.mod_unique_pos with (q := -1); lia).
    destruct (z + 2 ^ 32 <? 2 ^ 31) eqn:E; [apply Z.ltb_lt in E | ]; lia.
  - rewrite Z.mod_small by lia.
    destruct (z <? 2 ^ 31) eqn:E; [| apply Z.ltb_ge in E]; lia.
Qed.

Lemma shl_5_small (h : Z) : - 2 ^ 26 <= h < 2 ^ 26 -> JS.shl h 5 = 32 * h.
Proof.
  intros H. unfold JS.shl. rewrite (ToInt32_small h) by lia.
  change (5 mod 32) with 5. rewrite Z.shiftl_mul_pow2 by lia.
  rewrite ToInt32_small; lia.
Qed.

Lemma charCodes_range (s : string) : Forall (fun c => 0 <= c < 256) (JS.charCodes s).
Proof.
  induction s as [|c s IH]; simpl; constructor; [| assumption].
  unfold JS.code. pose proof (N_ascii_bounded c). lia.
Qed.

Lemma charCodes_append (a b : string) :
  JS.charCodes (a ++ b) = (JS.charCodes a ++ JS.charCodes b)%list.
Proof.
  induction a as [|c a IH]; rewrite ?append_nil, ?append_cons; simpl;
    [reflexivity | now rewrite IH].
Qed.

(** The hash stays an integer that a number holds exactly, for every
    category of fewer than 2^21 characters. *)
Lemma hash_loop_bound (codes : list Z) (h : Z) :
  Forall (fun c => 0 <= c < 256) codes ->
  Z.abs (hash_loop codes h) <= Z.abs h + Z.of_nat (length codes) * (2 ^ 31 + 255).
Proof.
  revert h. induction codes as [|c codes IH]; intros h Hc; simpl hash_loop.
  - simpl. lia.
  - inversion Hc; subst. specialize (IH (c + (JS.shl h 5 - h)) ltac:(assumption)).
    pose proof (ToInt32_range (Z.shiftl (JS.ToInt32 h) (5 mod 32))) as Hs.
    fold (JS.shl h 5) in Hs.
    rewrite length_cons, Nat2Z.inj_succ. lia.
Qed.

Lemma category_hash_exact (category : string) :
  (String.length category < 2 ^ 21)%nat -> Z.abs (category_hash category) < 2 ^ 53.
Proof.
  intros H. unfold category_hash.
  pose proof (hash_loop_bound (JS.charCodes category) 0 (charCodes_range category)) as Hb.
  assert (length (JS.charCodes category) = String.length category) as El.
  { clear. induction category; simpl; congruence. }
  rewrite El in Hb.
  assert (Z.of_nat (String.length category) < 2 ^ 21) by
    (apply Nat2Z.inj_lt in H; rewrite Nat2Z.inj_pow in H; exact H).
  simpl Z.abs in Hb. nia.
Qed.

Lemma hash_loop_snoc (codes : list Z) (c h : Z) :
  hash_loop (codes ++ [c]) h = c + (JS.shl (hash_loop codes h) 5 - hash_loop codes h).
Proof.
  revert h. induction codes as [|d codes IH]; intros h; simpl; [reflexivity | apply IH].
Qed.

(** While the shift does not overflow, the hash is the polynomial one:
    each character adds its code to 31 times the hash so far. *)
Lemma category_hash_polynomial (category : string) (c : ascii) :
  - 2 ^ 26 <= category_hash category < 2 ^ 26 ->
  category_hash (category ++ String c EmptyString)
  = JS.code c + 31 * category_hash category.
Proof.
  intros H. unfold category_hash in *. rewrite charCodes_append. simpl.
  rewrite hash_loop_snoc, shl_5_small by assumption. lia.
Qed.

Lemma hue_range (category : string) : - 360 < hue category < 360.
Proof.
  unfold hue. pose proof (Z.rem_bound_abs (category_hash category) 360 ltac:(lia)). lia.
Qed.

(* ===================================================================== *)
(** ** NaN                                                                *)
(* ===================================================================== *)


(* ===================================================================== *)
(** ** The tooltip                                                        *)
(* ===================================================================== *)

Lemma shown_description_long (t : Transaction) :
  (35 < String.length (description t))%nat ->
  shown_description t = String.substring 0 32 (description t) ++ "..."
  /\ String.length (shown_description t) = 35%nat
  /\ exists r, description t = String.substring 0 32 (description t) ++ r.
Proof.
  intros H. unfold shown_description, JS.substring.
  apply Nat.ltb_lt in H as E. rewrite E. simpl Nat.sub. repeat split.
  - rewrite length_append, substring_length by lia. reflexivity.
  - apply substring_prefix. lia.
Qed.

Lemma shown_description_short (t : Transaction) :
  (String.length (description t) <= 35)%nat -> shown_description t = description t.
Proof.
  intros H. unfold shown_description.
  apply Nat.ltb_ge in H as E. now rewrite E.
Qed.

Lemma group_push_In (m : list (string * list Transaction)) (t u : Transaction) :
  (exists txns, In (category u, txns) m /\ In u txns) \/ u = t ->
  exists txns, In (category u, txns) (group_push m t) /\ In u txns.
Proof.
  induction m as [|[c txns] m IH]; simpl.
  - intros [(x & [] & _)| ->]. exists [t]. simpl. tauto.
  - intros H. destruct (String.eqb_spec c (category t)) as [->|Hne].
    + destruct H as [(x & [[= E <-]|Hx] & Hu)| ->].
      * exists (txns ++ [t])%list. split; [left; now rewrite E |].
        apply List.in_or_app. tauto.
      * exists x. simpl. tauto.
      * exists (txns ++ [t])%list. split; [now left |].
        apply List.in_or_app. simpl. tauto.
    + destruct H as [(x & [[= <- <-]|Hx] & Hu)| ->].
      * exists txns. simpl. tauto.
      * destruct IH as (y & Hy & Huy); [left; eauto |]. exists y. simpl. tauto.
      * destruct IH as (y & Hy & Huy); [now right |]. exists y. simpl. tauto.
Qed.

Lemma fold_group_push_In (l : list Transaction) (m : list (string * list Transaction))
    (u : Transaction) :
  (exists txns, In (category u, txns) m /\ In u txns) \/ In u l ->
  exists txns, In (category u, txns) (fold_left group_push l m) /\ In u txns.
Proof.
  revert m. induction l as [|t l IH]; intros m; simpl.
  - intros [H|[]]. exact H.
  - intros H. apply IH. destruct H as [H|[->|H]].
    + left. apply group_push_In. now left.
    + left. apply group_push_In. now right.
    + now right.
Qed.

Section TooltipProperties.

Variable localeCompare : string -> string -> Z.
Variable toFixed : JS.number -> nat -> string.

(** Every transaction of the hovered date has its line in the tooltip. *)
Lemma tooltip_label_has_line (transactions : list Transaction) (t : Transaction)
    (value : JS.number) (datasetLabel : string) :
  In t transactions -> datasetLabel <> "Total (Daily)" ->
  In (transaction_line toFixed t)
    (tooltip_label localeCompare toFixed transactions (date t) value datasetLabel).
Proof.
  intros Ht Hl. unfold tooltip_label.
  apply String.eqb_neq in Hl. rewrite Hl. cbv zeta.
  set (day := List.filter _ transactions).
  destruct (fold_group_push_In day [] t) as (txns & Hg & Htx).
  { right. apply filter_In. split; [assumption | apply String.eqb_refl]. }
  apply in_cons, in_cons.
  assert ((0 <? length (fold_left group_push day []))%nat = true) as ->.
  { destruct (fold_left group_push day []); [destruct Hg | reflexivity]. }
  apply in_cons, in_concat.
  exists (category_lines toFixed (category t, txns)). split.
  - apply in_map. now apply sort_In.
  - apply in_cons. now apply in_map.
Qed.

End TooltipProperties.

(* ===================================================================== *)
(** ** The weekly view in the time zones                                  *)
(* ===================================================================== *)

Lemma numbers_eqb_eq (a b : list JS.number) : numbers_eqb a b = true -> a = b.
Proof.
  revert b. induction a as [|x a IH]; intros [|y b]; simpl; try discriminate.
  - reflexivity.
  - rewrite andb_true_iff. intros [E H].
    apply FloatAxioms.Leibniz.eqb_spec in E. subst. f_equal. now apply IH.
Qed.

Lemma weekly_data_in_zones (zones : list Z) (transactions : list Transaction)
    (values : list JS.number) :
  forallb (fun tza => match weekly_data tza transactions with
                      | Some vs => numbers_eqb vs values
                      | None => false
                      end) zones = true ->
  forall tza, In tza zones -> weekly_data tza transactions = Some values.
Proof.
  rewrite List.forallb_forall. intros H tza Hin. specialize (H tza Hin).
  destruct (weekly_data tza transactions); [| discriminate].
  f_equal. now apply numbers_eqb_eq.
Qed.

(** West of UTC the Monday and the Wednesday fall in two weeks. *)
Lemma same_week_west (tza : Z) :
  - 720 <= tza < 0 -> weekly_data tza same_week = Some [20; 5]%float.
Proof.
  intros H. apply (weekly_data_in_zones west_of_UTC); [vm_compute; reflexivity |].
  unfold west_of_UTC. apply in_map_iff. exists (Z.to_nat (- tza)).
  split; [lia | apply in_seq; lia].
Qed.

(** In UTC and east of it they fall in one. *)
Lemma same_week_east (tza : Z) :
  0 <= tza <= 840 -> weekly_data tza same_week = Some [25; 25]%float.
Proof.
  intros H. apply (weekly_data_in_zones east_of_UTC); [vm_compute; reflexivity |].
  unfold east_of_UTC. apply in_map_iff. exists (Z.to_nat tza).
  split; [lia | apply in_seq; lia].
Qed.

(* ===================================================================== *)
(** ** The week of a date                                                 *)
(* ===================================================================== *)

Lemma week_key_is_spec (tza : Z) (back : Z -> Z) (zone_days : list Z) :
  forallb (week_key_is tza back) zone_days = true ->
  forall n, In n zone_days ->
    weekKey tza (iso_date_of_day n) = Some (iso_date_of_day (n - back n)).
Proof.
  rewrite List.forallb_forall. intros H n Hn. specialize (H n Hn).
  unfold week_key_is in H. destruct (weekKey tza (iso_date_of_day n)); [| discriminate].
  apply String.eqb_eq in H. now subst.
Qed.

Lemma days_of_2024_In (n : Z) : 19723 <= n <= 20088 -> In n days_of_2024.
Proof.
  intros H. unfold days_of_2024. apply in_map_iff. exists (Z.to_nat (n - 19723)).
  split; [lia | apply in_seq; lia].
Qed.

(** Day 0 is a Thursday, so [(n + 3) mod 7] days after a Monday.  In UTC
    the week of every day of 2024 starts on the Monday on or before it. *)
Lemma week_key_UTC_2024 (n : Z) :
  19723 <= n <= 20088 ->
  weekKey 0 (iso_date_of_day n) = Some (iso_date_of_day (n - (n + 3) mod 7)).
Proof.
  intros H. apply (week_key_is_spec 0 (fun n => (n + 3) mod 7) days_of_2024).
  - vm_compute. reflexivity.
  - now apply days_of_2024_In.
Qed.

(** Five hours behind UTC it starts on the Tuesday on or before it. *)
Lemma week_key_UTC_minus_5_2024 (n : Z) :
  19723 <= n <= 20088 ->
  weekKey (-300) (iso_date_of_day n) = Some (iso_date_of_day (n - (n + 2) mod 7)).
Proof.
  intros H. apply (week_key_is_spec (-300) (fun n => (n + 2) mod 7) days_of_2024).
  - vm_compute. reflexivity.
  - now apply days_of_2024_In.
Qed.

(* ===================================================================== *)
(** ** Dates in the form of the bank                                      *)
(* ===================================================================== *)

Lemma is_digit_not_slash (c : ascii) : is_digit c = true -> Ascii.eqb c "/" = false.
Proof.
  unfold is_digit, JS.digit_of. intros H.
  destruct (Ascii.eqb_spec c "/") as [->|]; [discriminate H | reflexivity].
Qed.

Lemma split_digits_slash (m rest : string) :
  all_digits m = true ->
  JS.split "/" (m ++ String "/" rest) = m :: JS.split "/" rest.
Proof.
  induction m as [|c m IH]; intros H.
  - reflexivity.
  - simpl in H. apply andb_true_iff in H as [Hc Hm].
    rewrite append_cons. simpl. rewrite (is_digit_not_slash c Hc), (IH Hm). reflexivity.
Qed.

Lemma split_digits (y : string) : all_digits y = true -> JS.split "/" y = [y].
Proof.
  induction y as [|c y IH]; intros H; simpl in *; [reflexivity |].
  apply andb_true_iff in H as [Hc Hy].
  now rewrite (is_digit_not_slash c Hc), (IH Hy).
Qed.

Lemma padStart_digits (s : string) :
  all_digits s = true -> (1 <= String.length s <= 2)%nat ->
  exists a b, JS.padStart 2 "0" s = String a (String b EmptyString)
              /\ is_digit a = true /\ is_digit b = true.
Proof.
  intros H Hl. destruct s as [|a [|b [|c s]]]; simpl in *; try lia.
  - exists "0"%char, a. rewrite andb_true_r in H. repeat split; assumption.
  - exists a, b. apply andb_true_iff in H as [Ha Hb]. rewrite andb_true_r in Hb.
    repeat split; assumption.
Qed.

(** A date [M/D/YYYY], of one or two digits for the month and for the
    day and four for the year, is normalized to the ISO form. *)
Lemma normalize_row_iso_form (row : RawRow) (m d y : string) (t : Transaction) :
  all_digits m = true -> (1 <= String.length m <= 2)%nat ->
  all_digits d = true -> (1 <= String.length d <= 2)%nat ->
  all_digits y = true -> String.length y = 4%nat ->
  Transaction_Date row = Some (m ++ String "/" (d ++ String "/" y)) ->
  normalize_row row = Pushed t ->
  iso_form (date t) = true.
Proof.
  intros Hm Lm Hd Ld Hy Ly Hrow. unfold normalize_row. rewrite Hrow.
  assert (field_truthy (Some (m ++ String "/" (d ++ String "/" y)))
          = Some (m ++ String "/" (d ++ String "/" y))) as ->.
  { destruct m; [simpl in Lm; lia | reflexivity]. }
  destruct (field_truthy (Amount row)) as [amountStr|]; [| discriminate].
  rewrite (split_digits_slash m _ Hm), (split_digits_slash d _ Hd), (split_digits y Hy).
  destruct (negb (JS.isNaN (- JS.parseFloat amountStr))); [| discriminate].
  intros [= <-]. cbn [date].
  destruct (padStart_digits m Hm Lm) as (m1 & m2 & -> & Hm1 & Hm2).
  destruct (padStart_digits d Hd Ld) as (d1 & d2 & -> & Hd1 & Hd2).
  destruct y as [|y1 [|y2 [|y3 [|y4 [|y5 y]]]]]; simpl in Ly; try lia.
  simpl in Hy. repeat (apply andb_true_iff in Hy as [? Hy]).
  repeat rewrite append_cons. cbn [String.append iso_form].
  repeat (apply andb_true_iff; split); try assumption; reflexivity.
Qed.

(* ===================================================================== *)
(** ** The properties of the specification                                *)
(* ===================================================================== *)

Lemma StronglySorted_impl {A} (R R' : A -> A -> Prop) (P : A -> Prop) (l : list A) :
  (forall a b, P a -> P b -> R a b -> R' a b) ->
  Forall P l -> StronglySorted R l -> StronglySorted R' l.
Proof.
  intros HR HP Hs. induction Hs as [|a l Hs IH Ha]; [constructor |].
  inversion HP; subst. constructor; [now apply IH |].
  rewrite List.Forall_forall in *. auto.
Qed.

Lemma store_ok_StronglySorted (localeCompare : string -> string -> Z) (s : list Transaction) :
  (forall a b c, localeCompare a b <= 0 -> localeCompare b c <= 0 -> localeCompare a c <= 0) ->
  store_ok localeCompare s -> StronglySorted (date_le localeCompare) s.
Proof.
  intros Htrans (_ & _ & Hs). apply Sorted_StronglySorted; [| exact Hs].
  intros a b c. unfold date_le. apply Htrans.
Qed.

(** C1.  Dedup idempotence: for every prior store and every list of rows,
    ingesting the rows a second time gives the store that the first
    ingestion gave, with the same number of records: the store after an
    ingestion holds no two records that agree on date, amount, description
    and category, being the first occurrences of the keys of the previous
    store followed by the new records, sorted by a stable sort. *)
Theorem ingest_idempotent (localeCompare : string -> string -> Z) :
  (forall a b, 0 < localeCompare a b -> localeCompare b a <= 0) ->
  forall (data : list RawRow) (prev : list Transaction),
    let once := parseCSV localeCompare data prev in
    let twice := parseCSV localeCompare data once in
    twice = once
    /\ length twice = length once
    /\ (parseCSV_throws data = false -> distinct_keys once)
    /\ (forall new, forEach_row data [] = Some new ->
          once = JS.sort (fun a b => localeCompare (date a) (date b))
                   (keep_first same_key [] (prev ++ new))).
Proof.
  intros Htotal data prev once twice.
  assert (twice = once) as E by (apply parseCSV_again; assumption).
  repeat split.
  - exact E.
  - now rewrite E.
  - unfold parseCSV_throws. subst once. unfold parseCSV.
    destruct (forEach_row data []); [intros _ | discriminate].
    now apply merge_ok.
  - intros new Hnew. subst once. unfold parseCSV. rewrite Hnew.
    apply merge_keep_first.
Qed.

Lemma ingest_idempotent_witness :
  parseCSV JS.compare_code_units sample_rows
    (parseCSV JS.compare_code_units sample_rows [])
  = parseCSV JS.compare_code_units sample_rows [].
Proof.
  exact (proj1 (ingest_idempotent JS.compare_code_units compare_code_units_total
                  sample_rows [])).
Defined.

(** C5.  Date ordering: after an ingestion the records of the store are
    non-decreasing by date in the order of [localeCompare], and so are
    the records of every reachable store; where the dates are in the ISO
    form, on which [localeCompare] orders as the code units do, they are
    non-decreasing as strings.  The ISO form is what the normalizer makes
    of a date in the form of the bank. *)
Theorem store_sorted_by_date (localeCompare : string -> string -> Z) :
  (forall a b, 0 < localeCompare a b -> localeCompare b a <= 0) ->
  (forall a b c, localeCompare a b <= 0 -> localeCompare b c <= 0 ->
                 localeCompare a c <= 0) ->
  (forall a b, iso_form a = true -> iso_form b = true ->
               localeCompare a b <= 0 -> String.leb a b = true) ->
  (forall data prev, parseCSV_throws data = false ->
     StronglySorted (date_le localeCompare) (parseCSV localeCompare data prev)
     /\ (Forall (fun t => iso_form (date t) = true) (parseCSV localeCompare data prev) ->
         StronglySorted date_string_le (parseCSV localeCompare data prev)))
  /\ (forall s, reachable localeCompare s ->
        StronglySorted (date_le localeCompare) s
        /\ (Forall (fun t => iso_form (date t) = true) s ->
            StronglySorted date_string_le s))
  /\ (forall row m d y t,
        all_digits m = true -> (1 <= String.length m <= 2)%nat ->
        all_digits d = true -> (1 <= String.length d <= 2)%nat ->
        all_digits y = true -> String.length y = 4%nat ->
        Transaction_Date row = Some (m ++ String "/" (d ++ String "/" y)) ->
        normalize_row row = Pushed t ->
        iso_form (date t) = true).
Proof.
  intros Htotal Htrans Hiso.
  assert (forall s, StronglySorted (date_le localeCompare) s ->
                    Forall (fun t => iso_form (date t) = true) s ->
                    StronglySorted date_string_le s) as Hlex.
  { intros s Hs Hf. eapply StronglySorted_impl; [| exact Hf | exact Hs].
    intros a b Ha Hb. apply Hiso; assumption. }
  split.
  - intros data prev Hthrows.
    assert (StronglySorted (date_le localeCompare) (parseCSV localeCompare data prev)) as Hs.
    { apply store_ok_StronglySorted; [assumption |].
      unfold parseCSV_throws in Hthrows. unfold parseCSV.
      destruct (forEach_row data []); [now apply merge_ok | discriminate]. }
    split; [exact Hs | now apply Hlex].
  - split; [| exact normalize_row_iso_form].
    intros s Hr.
    assert (StronglySorted (date_le localeCompare) s) as Hs.
    { apply store_ok_StronglySorted; [assumption | now apply reachable_ok]. }
    split; [exact Hs | now apply Hlex].
Qed.

Lemma store_sorted_by_date_witness :
  StronglySorted date_string_le (parseCSV JS.compare_code_units sample_rows []).
Proof.
  refine (proj2 (proj1 (store_sorted_by_date JS.compare_code_units
            compare_code_units_total compare_code_units_trans
            (fun a b _ _ => compare_code_units_leb a b)) sample_rows [] _) _).
  - reflexivity.
  - vm_compute. repeat constructor.
Defined.

(** C10.  Ingestion keeps what the store holds: every record of a
    reachable store is a record of the store after an ingestion, with the
    same four fields; [clearData] is what empties the store. *)
Theorem ingest_keeps_records (localeCompare : string -> string -> Z) :
  (forall a b, 0 < localeCompare a b -> localeCompare b a <= 0) ->
  forall (data : list RawRow) (prev : list Transaction),
    reachable localeCompare prev ->
    (forall t, In t prev -> In t (parseCSV localeCompare data prev))
    /\ clearData = [].
Proof.
  intros Htotal data prev Hr. split; [| reflexivity].
  intros t Ht. unfold parseCSV. destruct (forEach_row data []); [| exact Ht].
  apply merge_keeps; [now apply reachable_ok | exact Ht].
Qed.

Lemma ingest_keeps_records_witness :
  In {| date := "2024-01-01"; amount := -30; description := "Unknown"; category := "Gas" |}
    (parseCSV JS.compare_code_units [two_component_row]
       (parseCSV JS.compare_code_units sample_rows [])).
Proof.
  refine (proj1 (ingest_keeps_records JS.compare_code_units compare_code_units_total
            [two_component_row] (parseCSV JS.compare_code_units sample_rows [])
            (reachable_parseCSV _ sample_rows [] (reachable_initial _))) _ _).
  vm_compute. left. reflexivity.
Defined.

Lemma forEach_row_app (data : list RawRow) (acc : list Transaction) :
  forEach_row data acc = option_map (app acc) (forEach_row data []).
Proof.
  revert acc. induction data as [|row data IH]; intros acc; simpl.
  - now rewrite List.app_nil_r.
  - destruct (normalize_row row) as [t| |]; [| apply IH | reflexivity].
    rewrite (IH (acc ++ [t])%list), (IH [t]).
    destruct (forEach_row data []); simpl; [| reflexivity].
    now rewrite <- List.app_assoc.
Qed.






(** C2.  Cumulative correctness: the series of testable property 3 is
    [10, 7, 12]; the cumulative view plots [cumulative_data] over the
    sorted dates; and, for finite amounts, the value at each date of the
    x-axis is the sum of the amounts on or before that date: the total
    of each day, carried from day to day. *)
Theorem cumulative_series :
  cumulative_data three_days = [10; 7; 12]%float
  /\ (forall tza transactions,
        transactions <> [] ->
        getChartData tza transactions {[cumulative]}
        = Some {| labels := allDates transactions;
                  datasets := [line_dataset "Cumulative" (cumulative_data transactions)
                                 "#ffffff" "rgba(255, 255, 255, 0.1)"] |})
  /\ (forall transactions,
        Forall (fun t => is_finite (amount t) = true) transactions ->
        cumulative_data transactions
        = map (total_on_or_before transactions) (allDates transactions)).
Proof.
  split; [reflexivity | split].
  - intros tza [|t transactions] H; [congruence | reflexivity].
  - intros transactions H. now apply cumulative_data_totals, finite_plain_sums.
Qed.

Lemma cumulative_series_witness :
  cumulative_data three_days
  = map (total_on_or_before three_days) ["2024-01-01"; "2024-01-02"; "2024-01-03"].
Proof.
  refine (proj2 (proj2 cumulative_series) three_days _).
  repeat constructor.
Defined.

(** C4.  Weekly bucketing, where the local time zone is five hours
    behind UTC: [new Date("2024-01-01")] is midnight UTC, which is Sunday
    evening there, so the Monday gets the week that starts 2023-12-26 and
    the Wednesday the week that starts 2024-01-02, and the two plotted
    values are 20 and 5.  In UTC both are 25.  So it is in every time
    zone behind UTC, and in every one at or ahead of it; over the year
    2024, the weeks start on Monday in UTC and on Tuesday five hours
    behind it. *)
Theorem weekly_bucketing_by_time_zone :
  weekKey (-300) "2024-01-01" = Some "2023-12-26"
  /\ weekKey (-300) "2024-01-03" = Some "2024-01-02"
  /\ getChartData (-300) same_week {[weekly]}
     = Some {| labels := ["2024-01-01"; "2024-01-03"];
               datasets := [line_dataset "Weekly" [20; 5]%float
                              "#666666" "rgba(102, 102, 102, 0.1)"] |}
  /\ weekKey 0 "2024-01-01" = Some "2024-01-01"
  /\ weekKey 0 "2024-01-03" = Some "2024-01-01"
  /\ getChartData 0 same_week {[weekly]}
     = Some {| labels := ["2024-01-01"; "2024-01-03"];
               datasets := [line_dataset "Weekly" [25; 25]%float
                              "#666666" "rgba(102, 102, 102, 0.1)"] |}
  /\ (forall tza, - 720 <= tza < 0 ->
        weekly_data tza same_week = Some [20; 5]%float)
  /\ (forall tza, 0 <= tza <= 840 ->
        weekly_data tza same_week = Some [25; 25]%float)
  /\ (forall n, 19723 <= n <= 20088 ->
        weekKey 0 (iso_date_of_day n)
        = Some (iso_date_of_day (n - (n + 3) mod 7)))
  /\ (forall n, 19723 <= n <= 20088 ->
        weekKey (-300) (iso_date_of_day n)
        = Some (iso_date_of_day (n - (n + 2) mod 7))).
Proof.
  do 6 (split; [reflexivity |]).
  split; [exact same_week_west |].
  split; [exact same_week_east |].
  split; [exact week_key_UTC_2024 | exact week_key_UTC_minus_5_2024].
Qed.

(** C6.  Truncation: a description of more than 35 characters is shown as
    its first 32 characters and three dots, 35 characters in all, so one
    of 50 characters is shown as 32 characters and the dots; one of at
    most 35 characters is shown as it is; and the line of every
    transaction of the hovered date, which starts with four spaces and
    the shown description, is in the tooltip. *)
Theorem description_truncated (localeCompare : string -> string -> Z)
    (toFixed : JS.number -> nat -> string) (t : Transaction) :
  ((35 < String.length (description t))%nat ->
     shown_description t = String.substring 0 32 (description t) ++ "..."
     /\ String.length (shown_description t) = 35%nat
     /\ exists r, description t = String.substring 0 32 (description t) ++ r)
  /\ (String.length (description t) = 50%nat ->
        shown_description t = String.substring 0 32 (description t) ++ "..."
        /\ String.length (String.substring 0 32 (description t)) = 32%nat)
  /\ ((String.length (description t) <= 35)%nat ->
        shown_description t = description t)
  /\ (forall transactions value datasetLabel,
        In t transactions -> datasetLabel <> "Total (Daily)" ->
        In (padRight ("    " ++ shown_description t) 40
              ++ (if (0 <? amount t)%float then "+" else "") ++ "$"
              ++ toFixed (abs (amount t)) 2%nat)
          (tooltip_label localeCompare toFixed transactions (date t) value datasetLabel)).
Proof.
  split; [| split; [| split]].
  - apply shown_description_long.
  - intros Hlen. split.
    + apply shown_description_long. lia.
    + apply substring_length. lia.
  - apply shown_description_short.
  - intros transactions value datasetLabel Ht Hl.
    apply (tooltip_label_has_line localeCompare toFixed transactions t value datasetLabel Ht Hl).
Qed.

Lemma description_truncated_witness :
  shown_description long_description = "ABCDEFGHIJKLMNOPQRSTUVWXYZabcdef...".
Proof.
  refine (eq_trans (proj1 (proj1 (proj2 (description_truncated JS.compare_code_units
            (fun _ _ => "") long_description)) _)) _); reflexivity.
Defined.

(** C7.  Category color stability: the color is a function of the
    category, so two calls with one category give one color;
    [Groceries] is [#10b981]; a category that is neither in the table nor
    a member of [Object.prototype] gets the hue of its hash, the
    remainder of the hash by 360, strictly between -360 and 360; and the
    hash is the polynomial one, a character adding its code to 31 times
    the hash, as long as the shift stays within 32 bits. *)
Theorem category_color_stable (category : string) :
  (forall again, again = category -> getCategoryColor again = getCategoryColor category)
  /\ getCategoryColor "Groceries" = Css "#10b981"
  /\ (colors !! category = None -> inherited category = false ->
        getCategoryColor category
        = Css ("hsl(" ++ JS.show_int (Z.rem (category_hash category) 360) ++ ", 70%, 50%)")
        /\ - 360 < Z.rem (category_hash category) 360 < 360)
  /\ (forall c, - 2 ^ 26 <= category_hash category < 2 ^ 26 ->
        category_hash (category ++ String c EmptyString)
        = JS.code c + 31 * category_hash category).
Proof.
  split; [| split; [| split]].
  - intros again ->. reflexivity.
  - reflexivity.
  - intros Hown Hproto. split; [| apply hue_range].
    unfold getCategoryColor. now rewrite Hown, Hproto.
  - intros c H. now apply category_hash_polynomial.
Qed.

Lemma category_color_stable_witness :
  getCategoryColor "Coffee" = Css "hsl(164, 70%, 50%)".
Proof.
  refine (eq_trans (proj1 (proj1 (proj2 (proj2 (category_color_stable "Coffee"))) _ _)) _);
    reflexivity.
Defined.

(** C8.  Empty state: with no transaction, or with no view enabled, the
    chart data has no label and one series, labeled [No data], with no
    data. *)
Theorem empty_state (tza : Z) (transactions : list Transaction)
    (enabledViews : gset ViewMode) :
  transactions = [] \/ enabledViews = ∅ ->
  exists series,
    getChartData tza transactions enabledViews
    = Some {| labels := []; datasets := [series] |}
    /\ label series = "No data" /\ data series = [].
Proof.
  intros H. exists no_data_series. split; [| split; reflexivity].
  unfold getChartData. destruct H as [-> | ->]; [reflexivity |].
  rewrite size_empty, orb_true_r. reflexivity.
Qed.

Lemma empty_state_witness :
  exists series,
    getChartData 0 three_days ∅ = Some {| labels := []; datasets := [series] |}
    /\ label series = "No data" /\ data series = [].
Proof. exact (empty_state 0 three_days ∅ (or_intror eq_refl)). Defined.

(** C9.  Drop filter, as [handleDrop] does it: a dropped file is handed
    to the ingestion exactly when its name ends in [.csv] or in [.CSV];
    every other file, one with an extension in mixed case among them, is
    left out, and nothing fails. *)
Theorem drop_filter (files : list File) (f : File) :
  (In f (handleDrop files) <->
   In f files /\ ((exists p, name f = p ++ ".csv") \/ (exists p, name f = p ++ ".CSV")))
  /\ handleDrop (files ++ [mixed_case_file]) = handleDrop files.
Proof.
  split; [apply handleDrop_In |].
  unfold handleDrop. rewrite List.filter_app. simpl. apply List.app_nil_r.
Qed.

(** The test is not blind to case: [statement.Csv] ends in [.csv] when
    case is set aside, and is not handed on. *)
Lemma drop_filter_counterexample :
  spec_is_csv mixed_case_file = true /\ handleDrop [mixed_case_file] = [].
Proof. split; reflexivity. Qed.

(* ===================================================================== *)
(** ** Further properties: the views                                      *)
(* ===================================================================== *)

(** X1.  [toggleView] switches one view and leaves the others: after it
    the view is enabled exactly when it was not, every other view is as
    before, and toggling twice gives the set back. *)
Theorem toggleView_switches (view : ViewMode) (prev : gset ViewMode) :
  (view ∈ toggleView view prev <-> view ∉ prev)
  /\ (forall other, other <> view ->
        (other ∈ toggleView view prev <-> other ∈ prev))
  /\ toggleView view (toggleView view prev) = prev.
Proof.
  unfold toggleView. split; [| split].
  - case_bool_decide as Hv.
    + rewrite elem_of_difference, elem_of_singleton. split; [intros [_ H] | intros H]; tauto.
    + rewrite elem_of_union, elem_of_singleton. tauto.
  - intros other Hne. case_bool_decide as Hv.
    + rewrite elem_of_difference, elem_of_singleton. tauto.
    + rewrite elem_of_union, elem_of_singleton. tauto.
  - destruct (decide (view ∈ prev)) as [Hv|Hv].
    + rewrite (bool_decide_eq_true_2 _ Hv). rewrite bool_decide_eq_false_2.
      * apply set_eq. intros x.
        rewrite elem_of_union, elem_of_difference, elem_of_singleton.
        destruct (decide (x = view)) as [E|Hne]; [rewrite E |]; tauto.
      * rewrite elem_of_difference, elem_of_singleton. intros [_ H]. now apply H.
    + rewrite (bool_decide_eq_false_2 _ Hv). rewrite bool_decide_eq_true_2.
      * apply set_eq. intros x.
        rewrite elem_of_difference, elem_of_union, elem_of_singleton.
        destruct (decide (x = view)) as [E|Hne]; [rewrite E |]; tauto.
      * rewrite elem_of_union, elem_of_singleton. now right.
Qed.

Lemma cumulative_from_length (dm : gmap string JS.number) (dates : list string)
    (c : JS.number) :
  length (cumulative_from dm dates c) = length dates.
Proof.
  revert c. induction dates as [|d dates IH]; intros c; simpl; [reflexivity |].
  now rewrite IH.
Qed.

Lemma weekly_values_length (tza : Z) (wm : gmap string JS.number)
    (dates : list string) (vs : list JS.number) :
  weekly_values tza wm dates = Some vs -> length vs = length dates.
Proof.
  revert vs. induction dates as [|d dates IH]; intros vs; simpl.
  - now intros [= <-].
  - destruct (weekKey tza d) as [k|]; [| discriminate].
    destruct (weekly_values tza wm dates) as [vs'|]; [| discriminate].
    intros [= <-]. simpl. now rewrite (IH vs' eq_refl).
Qed.

(** X2.  Whenever [getChartData] returns, every series has one value
    for each label: the series of the three views and the placeholder
    alike. *)
Theorem chart_series_match_labels (tza : Z) (transactions : list Transaction)
    (enabledViews : gset ViewMode) (chart : ChartData) :
  getChartData tza transactions enabledViews = Some chart ->
  Forall (fun series => length (data series) = length (labels chart))
    (datasets chart).
Proof.
  unfold getChartData.
  destruct ((length transactions =? 0)%nat || (size enabledViews =? 0)%nat).
  { intros [= <-]. repeat constructor. }
  assert (Forall (fun series => length (data series) = length (allDates transactions))
            (if bool_decide (cumulative ∈ enabledViews)
             then [line_dataset "Cumulative" (cumulative_data transactions)
                     "#ffffff" "rgba(255, 255, 255, 0.1)"]
             else [])) as H1.
  { destruct (bool_decide (cumulative ∈ enabledViews)); repeat constructor.
    apply cumulative_from_length. }
  assert (Forall (fun series => length (data series) = length (allDates transactions))
            (if bool_decide (daily ∈ enabledViews)
             then daily_datasets transactions else [])) as H2.
  { destruct (bool_decide (daily ∈ enabledViews)); [| constructor].
    unfold daily_datasets.
    apply List.Forall_app. split.
    - apply List.Forall_forall. intros series Hs.
      apply in_map_iff in Hs as (c & <- & _). simpl. apply length_map.
    - repeat constructor. simpl. apply length_map. }
  destruct (bool_decide (weekly ∈ enabledViews)).
  - destruct (weekly_data tza transactions) as [values|] eqn:E; [| discriminate].
    intros [= <-]. simpl. apply List.Forall_app. split; [exact H1 |].
    apply List.Forall_app. split; [exact H2 |]. repeat constructor. simpl.
    unfold weekly_data in E. destruct (weeklyMap_from tza transactions ∅) as [wm|];
      [| discriminate].
    eapply weekly_values_length; eassumption.
  - intros [= <-]. simpl. apply List.Forall_app. split; [exact H1 |].
    apply List.Forall_app. split; [exact H2 | constructor].
Qed.

Lemma chart_series_match_labels_witness :
  Forall (fun series => length (data series) = 3%nat)
    [ line_dataset "Cumulative" [10; 7; 12]%float "#ffffff" "rgba(255, 255, 255, 0.1)" ].
Proof.
  exact (chart_series_match_labels 0 three_days {[cumulative]}
           {| labels := ["2024-01-01"; "2024-01-02"; "2024-01-03"];
              datasets := [line_dataset "Cumulative" [10; 7; 12]%float
                             "#ffffff" "rgba(255, 255, 255, 0.1)"] |}
           eq_refl).
Defined.

Lemma increasing_unique (l1 l2 : list string) :
  StronglySorted (fun a b => String.compare a b = Lt) l1 ->
  StronglySorted (fun a b => String.compare a b = Lt) l2 ->
  (forall x, In x l1 <-> In x l2) -> l1 = l2.
Proof.
  intros H1. revert l2. induction H1 as [|a l1 Hs1 IH Ha]; intros l2 H2 Hin.
  - destruct l2 as [|b l2]; [reflexivity |]. destruct (proj2 (Hin b)). now left.
  - destruct H2 as [|b l2 Hs2 Hb]; [destruct (proj1 (Hin a)); now left |].
    rewrite List.Forall_forall in Ha, Hb.
    assert (a = b) as <-.
    { destruct (proj1 (Hin a) (or_introl eq_refl)) as [E|Hab]; [now symmetry |].
      destruct (proj2 (Hin b) (or_introl eq_refl)) as [E|Hba]; [assumption |].
      specialize (Ha b Hba). specialize (Hb a Hab).
      rewrite String.compare_antisym, Ha in Hb. discriminate. }
    f_equal. apply IH; [assumption |]. intros x. split; intros Hx.
    + destruct (proj1 (Hin x) (or_intror Hx)) as [<-|H]; [| assumption].
      specialize (Ha a Hx). rewrite string_compare_refl in Ha. discriminate.
    + destruct (proj2 (Hin x) (or_intror Hx)) as [<-|H]; [| assumption].
      specialize (Hb a Hx). rewrite string_compare_refl in Hb. discriminate.
Qed.

(** X3.  The x-axis holds each date of the transactions once, in
    strictly increasing order of the code units, and nothing else; it is
    the same for two stores that hold the same dates, whatever their
    order. *)
Theorem allDates_axis (transactions : list Transaction) :
  StronglySorted (fun a b => String.compare a b = Lt) (allDates transactions)
  /\ List.NoDup (allDates transactions)
  /\ (forall d, In d (allDates transactions)
                <-> exists t, In t transactions /\ date t = d)
  /\ (forall others,
        (forall d, In d (map date others) <-> In d (map date transactions)) ->
        allDates others = allDates transactions).
Proof.
  split; [apply allDates_increasing |]. split; [| split].
  - unfold allDates, JS.sort_default. apply sort_NoDup, distinct_from_spec.
  - intros d. rewrite allDates_In, in_map_iff. firstorder.
  - intros others H. apply increasing_unique; try apply allDates_increasing.
    intros x. rewrite !allDates_In. apply H.
Qed.

Lemma cumulative_from_running (dm : gmap string JS.number) (dates : list string)
    (c : JS.number) :
  cumulative_from dm dates c
  = running_sums (map (fun d => JS.or_zero (dm !! d)) dates) c.
Proof.
  revert c. induction dates as [|d dates IH]; intros c; simpl; [reflexivity |].
  now rewrite IH.
Qed.

(** X4.  The cumulative series is the running sum of the series of daily
    totals, whatever the amounts: its first value is 0 plus the first
    total, each next one the previous value plus the total of the day. *)
Theorem cumulative_of_daily_totals (transactions : list Transaction) :
  cumulative_data transactions
  = running_sums (data (total_dataset transactions)) 0%float.
Proof. apply cumulative_from_running. Qed.

Lemma or_zero_accumulate (l : list JS.number) :
  Forall (fun a => is_finite a = true) l ->
  JS.or_zero (fold_left (fun v a => Some (JS.or_zero v + a)%float) l None)
  = sum_from_left l.
Proof.
  intros H. rewrite or_zero_fold; [reflexivity |].
  apply running_sums_plain; [split; discriminate | exact H].
Qed.

Lemma finite_amounts_filter (transactions : list Transaction) (p : Transaction -> bool) :
  Forall (fun t => is_finite (amount t) = true) transactions ->
  Forall (fun a => is_finite a = true) (map amount (List.filter p transactions)).
Proof.
  intros H. apply List.Forall_forall. intros a Ha.
  apply in_map_iff in Ha as (t & <- & Ht). apply filter_In in Ht as [Ht _].
  rewrite List.Forall_forall in H. now apply H.
Qed.

Lemma dailyCategoryMap_fold_cell (transactions : list Transaction)
    (m : gmap string (gmap string JS.number)) (d c : string) :
  cell
    (fold_left
       (fun (m : gmap string (gmap string JS.number)) t =>
          <[date t := <[category t :=
              (JS.or_zero (default ∅ (m !! date t) !! category t) + amount t)%float]>
              (default ∅ (m !! date t))]> m)
       transactions m) d c
  = fold_left (fun v a => Some (JS.or_zero v + a)%float)
      (amounts_of_cell transactions d c) (cell m d c).
Proof.
  revert m. unfold amounts_of_cell.
  induction transactions as [|t transactions IH]; intros m; simpl; [reflexivity |].
  rewrite IH. clear IH.
  assert (default ∅ (m !! d) !! c = cell m d c) as Hcell.
  { unfold cell. destruct (m !! d); [reflexivity | apply lookup_empty]. }
  destruct (String.eqb_spec (date t) d) as [Ed|Hd]; simpl.
  - destruct (String.eqb_spec (category t) c) as [Ec|Hc]; simpl.
    + f_equal. unfold cell at 1. rewrite Ed, lookup_insert_eq, Ec, lookup_insert_eq.
      now rewrite Hcell.
    + f_equal. unfold cell at 1. rewrite Ed, lookup_insert_eq.
      rewrite lookup_insert_ne by assumption. exact Hcell.
  - f_equal. unfold cell. now rewrite lookup_insert_ne.
Qed.

(** X5.  The daily view, for finite amounts: one series per category, in
    the sorted order of the categories, then the series of the totals;
    the value of a category at a date is the sum of the amounts of that
    date and category, and 0 where the category has no transaction that
    day; the value of the totals is the sum of the amounts of the day. *)
Theorem daily_view_cells (transactions : list Transaction) :
  Forall (fun t => is_finite (amount t) = true) transactions ->
  map label (daily_datasets transactions)
  = (JS.sort_default (JS.distinct (map category transactions))
     ++ ["Total (Daily)"])%list
  /\ (forall c, data (category_dataset transactions c)
                = map (cell_total transactions c) (allDates transactions))
  /\ data (total_dataset transactions)
     = map (day_total transactions) (allDates transactions)
  /\ (forall c d,
        (forall t, In t transactions -> date t = d -> category t <> c) ->
        cell_total transactions c d = 0%float).
Proof.
  intros Hfin. split; [| split; [| split]].
  - unfold daily_datasets. rewrite map_app, map_map. simpl.
    now rewrite map_id.
  - intros c. simpl. apply map_ext. intros d.
    transitivity (JS.or_zero (cell (dailyCategoryMap transactions) d c)).
    { unfold cell. now destruct (dailyCategoryMap transactions !! d). }
    unfold dailyCategoryMap. rewrite dailyCategoryMap_fold_cell.
    unfold cell at 1. rewrite lookup_empty.
    apply or_zero_accumulate, finite_amounts_filter, Hfin.
  - simpl. apply map_ext. intros d. apply dailyMap_day_total.
    apply running_sums_plain; [split; discriminate |].
    apply finite_amounts_filter, Hfin.
  - intros c d H. unfold cell_total, amounts_of_cell.
    assert (List.filter (fun t => String.eqb (date t) d && String.eqb (category t) c)
              transactions = []) as ->; [| reflexivity].
    clear Hfin. induction transactions as [|t transactions IH]; simpl; [reflexivity |].
    destruct (String.eqb_spec (date t) d) as [Ed|Hd]; simpl.
    + destruct (String.eqb_spec (category t) c) as [Ec|Hc]; simpl.
      * destruct (H t (or_introl eq_refl) Ed Ec).
      * apply IH. intros u Hu. apply H. now right.
    + apply IH. intros u Hu. apply H. now right.
Qed.

Lemma daily_view_cells_witness :
  data (category_dataset three_days "Gas") = [10; -3; 0]%float.
Proof.
  refine (eq_trans (proj1 (proj2 (daily_view_cells three_days _)) "Gas") _).
  - repeat constructor.
  - reflexivity.
Defined.

(* ===================================================================== *)
(** ** Further properties: the weekly view                                *)
(* ===================================================================== *)









Lemma digits_value_one (c : ascii) (v : Z) :
  JS.digits_value (String c EmptyString) = Some v -> is_digit c = true.
Proof.
  unfold JS.digits_value, is_digit. simpl.
  destruct (JS.digit_of c); [reflexivity | discriminate].
Qed.






(* ===================================================================== *)
(** ** Further properties: the store                                      *)
(* ===================================================================== *)

Lemma split_no_slash (s : string) : has_slash s = false -> JS.split "/" s = [s].
Proof.
  induction s as [|c s IH]; simpl; [reflexivity |].
  intros H. apply orb_false_iff in H as [Hc Hs]. now rewrite Hc, (IH Hs).
Qed.

Lemma split_slash (s : string) :
  has_slash s = true -> exists a b rest, JS.split "/" s = a :: b :: rest.
Proof.
  induction s as [|c s IH]; simpl; [discriminate |].
  destruct (Ascii.eqb c "/"); simpl.
  - intros _. destruct (JS.split "/" s) as [|b rest] eqn:E; [| eauto].
    destruct s as [|c' s']; simpl in E; [discriminate |].
    destruct (Ascii.eqb c' "/"); [discriminate |].
    destruct (JS.split "/" s'); discriminate.
  - intros H. destruct (IH H) as (a & b & rest & ->). eauto.
Qed.

Lemma normalize_row_TypeError (row : RawRow) :
  normalize_row row = TypeError <-> throwing_row row.
Proof.
  unfold normalize_row, throwing_row.
  destruct (field_truthy (Transaction_Date row)) as [dateStr|].
  - destruct (field_truthy (Amount row)) as [amountStr|].
    + destruct (has_slash dateStr) eqn:E.
      * destruct (split_slash dateStr E) as (a & b & rest & ->).
        split.
        -- destruct (negb (JS.isNaN (- JS.parseFloat amountStr))); discriminate.
        -- intros (d & a0 & [= <-] & _ & H). congruence.
      * rewrite (split_no_slash dateStr E). split; [intros _ | reflexivity].
        exists dateStr, amountStr. auto.
    + split; [discriminate | intros (d & a & _ & H & _); discriminate].
  - split; [discriminate | intros (d & a & H & _); discriminate].
Qed.

Lemma forEach_row_split (data : list RawRow) :
  forEach_row data []
  = match data with
    | [] => Some []
    | row :: data' =>
        match normalize_row row, forEach_row data' [] with
        | TypeError, _ => None
        | Skipped, r => r
        | Pushed t, Some new => Some (t :: new)
        | Pushed t, None => None
        end
    end.
Proof.
  destruct data as [|row data]; [reflexivity |]. simpl.
  destruct (normalize_row row) as [t| |]; try reflexivity.
  rewrite forEach_row_app. now destruct (forEach_row data []).
Qed.

Lemma parseCSV_throws_Exists (data : list RawRow) :
  parseCSV_throws data = true <-> Exists throwing_row data.
Proof.
  unfold parseCSV_throws. induction data as [|row data IH].
  - simpl. split; [discriminate | intros H; inversion H].
  - rewrite forEach_row_split.
    destruct (normalize_row row) as [t| |] eqn:E.
    + assert (~ throwing_row row) as Hrow
        by (rewrite <- normalize_row_TypeError; congruence).
      destruct (forEach_row data []) as [new|].
      * split; [discriminate | intros H].
        inversion H as [? ? H0|? ? H0]; subst; [contradiction |].
        apply IH in H0. discriminate.
      * split; [intros _; right; now apply IH | reflexivity].
    + assert (~ throwing_row row) as Hrow
        by (rewrite <- normalize_row_TypeError; congruence).
      rewrite IH. split; [now right | intros H].
      inversion H; subst; [contradiction | assumption].
    + split; [intros _; left; now apply normalize_row_TypeError | reflexivity].
Qed.

(** X8.  One date without a slash stops the whole file: the callback
    throws exactly when some row with a date and an amount has no slash
    in its date, whether or not its amount is a number, and then the
    store stays as it was, the other rows of the file included. *)
Theorem slashless_date_aborts (localeCompare : string -> string -> Z)
    (data : list RawRow) (prev : list Transaction) :
  (parseCSV_throws data = true <-> Exists throwing_row data)
  /\ (Exists throwing_row data -> parseCSV localeCompare data prev = prev).
Proof.
  split; [apply parseCSV_throws_Exists |].
  intros H. apply parseCSV_throws_Exists in H.
  unfold parseCSV_throws in H. unfold parseCSV.
  now destruct (forEach_row data []).
Qed.

Lemma slashless_date_aborts_witness :
  parseCSV JS.compare_code_units (sample_rows ++ [one_component_row]) [] = [].
Proof.
  refine (proj2 (slashless_date_aborts JS.compare_code_units
                   (sample_rows ++ [one_component_row]) []) _).
  apply List.Exists_app. right. left.
  exists "20240102", "-5". repeat split.
Defined.

Lemma forEach_row_length (data : list RawRow) (new : list Transaction) :
  forEach_row data [] = Some new -> (length new <= length data)%nat.
Proof.
  revert new. induction data as [|row data IH]; intros new.
  - simpl. intros [= <-]. simpl. lia.
  - rewrite forEach_row_split.
    destruct (normalize_row row) as [t| |]; [| | discriminate].
    + destruct (forEach_row data []) as [new'|]; [| discriminate].
      intros [= <-]. specialize (IH new' eq_refl). simpl. lia.
    + intros H. specialize (IH new H). simpl. lia.
Qed.

Lemma forEach_row_pushed (data : list RawRow) (new : list Transaction)
    (row : RawRow) (t : Transaction) :
  forEach_row data [] = Some new -> In row data -> normalize_row row = Pushed t ->
  In t new.
Proof.
  revert new. induction data as [|r data IH]; intros new; [intros _ [] |].
  rewrite forEach_row_split. intros H [->|Hin] Hp.
  - rewrite Hp in H. destruct (forEach_row data []); [| discriminate].
    injection H as <-. now left.
  - destruct (normalize_row r) as [u| |]; [| | discriminate].
    + destruct (forEach_row data []) as [new'|]; [| discriminate].
      injection H as <-. right. now apply (IH new' eq_refl).
    + now apply (IH new H).
Qed.

Lemma keep_first_length {A} (keq : A -> A -> bool) (seen l : list A) :
  (length (keep_first keq seen l) <= length l)%nat.
Proof.
  revert seen. induction l as [|x l IH]; intros seen; simpl; [lia |].
  specialize (IH (seen ++ [x])%list).
  destruct (first_of_key keq seen x); simpl; lia.
Qed.

(** X9.  After an ingestion that replaces the store, whatever the store
    was: no amount is NaN; the store has at most as many records as it
    had plus one per row; every row that was pushed has a record of its
    key in the store; and a reachable store does not shrink. *)
Theorem ingest_result (localeCompare : string -> string -> Z) :
  (forall a b, 0 < localeCompare a b -> localeCompare b a <= 0) ->
  forall (data : list RawRow) (prev : list Transaction),
    parseCSV_throws data = false ->
    Forall (fun t => JS.isNaN (amount t) = false) (parseCSV localeCompare data prev)
    /\ (length (parseCSV localeCompare data prev) <= length prev + length data)%nat
    /\ (forall row t, In row data -> normalize_row row = Pushed t ->
          exists r, In r (parseCSV localeCompare data prev) /\ same_key r t = true)
    /\ (reachable localeCompare prev ->
          (length prev <= length (parseCSV localeCompare data prev))%nat).
Proof.
  intros Htotal data prev Hthrows. unfold parseCSV_throws in Hthrows. unfold parseCSV.
  destruct (forEach_row data []) as [new|] eqn:E; [clear Hthrows | discriminate].
  rewrite merge_keep_first. split; [| split; [| split]].
  - apply sort_Forall. eapply List.Forall_impl; [| apply keep_first_Forall].
    simpl. intros t [H _]. now apply same_key_refl.
  - rewrite sort_length.
    pose proof (keep_first_length same_key [] (prev ++ new)) as H1.
    pose proof (forEach_row_length data new E) as H2.
    rewrite List.length_app in H1. lia.
  - intros row t Hrow Hp.
    destruct (keep_first_covers same_key same_key_sym same_key_trans [] (prev ++ new) t)
      as (r & [[]|Hr] & Hrt).
    + apply List.in_or_app. right. eapply forEach_row_pushed; eassumption.
    + apply same_key_refl. eapply normalize_row_not_NaN; eassumption.
    + exists r. split; [now apply sort_In | assumption].
  - intros Hr. apply reachable_ok in Hr as (Hv & Hd & _); [| assumption].
    rewrite sort_length, keep_first_app, List.length_app.
    rewrite keep_first_all; [lia | | exact Hd].
    eapply List.Forall_impl; [| exact Hv]. simpl. intros x Hx.
    split; [now apply same_key_refl | constructor].
Qed.

Lemma ingest_result_witness :
  (length (parseCSV JS.compare_code_units sample_rows []) <= 0 + 4)%nat.
Proof.
  exact (proj1 (proj2 (ingest_result JS.compare_code_units compare_code_units_total
                         sample_rows [] eq_refl))).
Defined.

(* The stable sort and a prefix that is sorted already. *)

Section SortPrefix.

Context {A : Type}.
Variable cmp : A -> A -> Z.
Hypothesis cmp_total : forall a b, 0 < cmp a b -> cmp b a <= 0.
Hypothesis cmp_trans : forall a b c, cmp a b <= 0 -> cmp b c <= 0 -> cmp a c <= 0.

Lemma insert_by_swap (a y : A) (l : list A) :
  0 < cmp a y ->
  JS.insert_by cmp y (JS.insert_by cmp a l) = JS.insert_by cmp a (JS.insert_by cmp y l).
Proof.
  intros Hay. pose proof (cmp_total a y Hay) as Hya.
  induction l as [|z l IH]; simpl.
  - apply Z.leb_le in Hya as ->. apply Z.leb_gt in Hay as ->. reflexivity.
  - destruct (cmp a z <=? 0) eqn:Eaz; destruct (cmp y z <=? 0) eqn:Eyz; simpl.
    + apply Z.leb_le in Hya as ->. apply Z.leb_gt in Hay as ->. now rewrite Eaz.
    + exfalso. apply Z.leb_le in Eaz. apply Z.leb_gt in Eyz.
      pose proof (cmp_trans a z y Eaz (cmp_total y z Eyz)). lia.
    + rewrite Eyz. apply Z.leb_gt in Hay as ->. simpl. now rewrite Eaz.
    + rewrite Eyz, Eaz. now rewrite IH.
Qed.

Lemma fold_insert_by (a : A) (base l : list A) :
  fold_right (JS.insert_by cmp) base (JS.insert_by cmp a l)
  = JS.insert_by cmp a (fold_right (JS.insert_by cmp) base l).
Proof.
  induction l as [|y l IH]; simpl; [reflexivity |].
  destruct (cmp a y <=? 0) eqn:E; simpl; [reflexivity |].
  rewrite IH. apply Z.leb_gt in E. now apply insert_by_swap.
Qed.

Lemma sort_app (l1 l2 : list A) :
  JS.sort cmp (l1 ++ l2) = fold_right (JS.insert_by cmp) (JS.sort cmp l2) l1.
Proof. induction l1 as [|x l1 IH]; simpl; [reflexivity | now rewrite IH]. Qed.

(** Sorting a prefix first changes nothing. *)
Lemma sort_sorted_prefix (l1 l2 : list A) :
  JS.sort cmp (JS.sort cmp l1 ++ l2) = JS.sort cmp (l1 ++ l2).
Proof.
  rewrite !sort_app. induction l1 as [|x l1 IH]; simpl; [reflexivity |].
  now rewrite fold_insert_by, IH.
Qed.

End SortPrefix.

Section KeepFirstSeen.

Context {A : Type}.
Variable keq : A -> A -> bool.

(** What is kept depends on what was seen only through its keys. *)
Lemma keep_first_seen (seen seen' l : list A) :
  (forall x, existsb (fun t => keq t x) seen = existsb (fun t => keq t x) seen') ->
  keep_first keq seen l = keep_first keq seen' l.
Proof.
  revert seen seen'. induction l as [|x l IH]; intros seen seen' H; simpl; [reflexivity |].
  rewrite !first_of_key_exists, H.
  assert (keep_first keq (seen ++ [x]) l = keep_first keq (seen' ++ [x]) l) as ->.
  { apply IH. intros y. now rewrite !existsb_app, H. }
  reflexivity.
Qed.

Hypothesis keq_sym : forall a b, keq a b = keq b a.
Hypothesis keq_trans : forall a b c, keq a b = true -> keq b c = true -> keq a c = true.

Lemma keep_first_keys (l : list A) (x : A) :
  existsb (fun t => keq t x) (keep_first keq [] l) = existsb (fun t => keq t x) l.
Proof.
  apply eq_true_iff_eq. rewrite !List.existsb_exists. split.
  - intros (r & Hr & Hrx). exists r. split; [| assumption].
    eapply keep_first_In; eassumption.
  - intros (y & Hy & Hyx).
    assert (keq y y = true) as Hyy.
    { apply (keq_trans y x y); [assumption | now rewrite keq_sym]. }
    destruct (keep_first_covers keq keq_sym keq_trans [] l y Hy Hyy)
      as (r & [[]|Hr] & Hry).
    exists r. split; [assumption | eauto].
Qed.

End KeepFirstSeen.

Lemma forEach_row_concat (data1 data2 : list RawRow) (new1 new2 : list Transaction) :
  forEach_row data1 [] = Some new1 -> forEach_row data2 [] = Some new2 ->
  forEach_row (data1 ++ data2) [] = Some (new1 ++ new2)%list.
Proof.
  revert new1. induction data1 as [|row data1 IH]; intros new1.
  - simpl. now intros [= <-].
  - intros H1 H2. rewrite forEach_row_split in H1.
    rewrite <- List.app_comm_cons, forEach_row_split.
    destruct (normalize_row row) as [t| |]; [| | discriminate].
    + destruct (forEach_row data1 []) as [new1'|]; [| discriminate].
      injection H1 as <-. now rewrite (IH new1' eq_refl H2).
    + now apply IH.
Qed.

(** X10.  Two files one after the other, or their rows at once: when
    neither file throws, the store is the same. *)
Theorem ingest_in_sequence (localeCompare : string -> string -> Z) :
  (forall a b, 0 < localeCompare a b -> localeCompare b a <= 0) ->
  (forall a b c, localeCompare a b <= 0 -> localeCompare b c <= 0 ->
                 localeCompare a c <= 0) ->
  forall (data1 data2 : list RawRow) (prev : list Transaction),
    parseCSV_throws data1 = false -> parseCSV_throws data2 = false ->
    parseCSV localeCompare data2 (parseCSV localeCompare data1 prev)
    = parseCSV localeCompare (data1 ++ data2) prev.
Proof.
  intros Htotal Htrans data1 data2 prev H1 H2.
  unfold parseCSV_throws in H1, H2. unfold parseCSV.
  destruct (forEach_row data1 []) as [new1|] eqn:E1; [clear H1 | discriminate].
  destruct (forEach_row data2 []) as [new2|] eqn:E2; [clear H2 | discriminate].
  rewrite (forEach_row_concat data1 data2 new1 new2 E1 E2).
  destruct (merge_ok localeCompare Htotal prev new1) as (Hv & Hd & _).
  rewrite (merge_keep_first localeCompare (merge localeCompare prev new1) new2).
  rewrite keep_first_app, keep_first_all; [| | exact Hd].
  2:{ eapply List.Forall_impl; [| exact Hv]. simpl. intros x Hx.
      split; [now apply same_key_refl | constructor]. }
  cbn [app].
  rewrite (merge_keep_first localeCompare prev (new1 ++ new2)).
  rewrite List.app_assoc, keep_first_app. cbn [app].
  rewrite (merge_keep_first localeCompare prev new1).
  set (by_date := fun a b : Transaction => localeCompare (date a) (date b)).
  rewrite (keep_first_seen same_key
             (JS.sort by_date (keep_first same_key [] (prev ++ new1)))
             (prev ++ new1) new2).
  - apply sort_sorted_prefix.
    + intros a b. apply Htotal.
    + intros a b c. apply Htrans.
  - intros x.
    rewrite <- (keep_first_keys same_key same_key_sym same_key_trans (prev ++ new1) x).
    apply eq_true_iff_eq. rewrite !List.existsb_exists.
    split; intros (r & Hr & Hrx); exists r; (split; [| assumption]).
    + now apply sort_In in Hr.
    + now apply sort_In.
Qed.

Lemma ingest_in_sequence_witness :
  parseCSV JS.compare_code_units [two_component_row]
    (parseCSV JS.compare_code_units sample_rows [])
  = parseCSV JS.compare_code_units (sample_rows ++ [two_component_row]) [].
Proof.
  exact (ingest_in_sequence JS.compare_code_units compare_code_units_total
           compare_code_units_trans sample_rows [two_component_row] []
           eq_refl eq_refl).
Defined.

(* ===================================================================== *)
(** ** Further properties: the tooltip                                    *)
(* ===================================================================== *)





Lemma distinct_from_snoc (seen l : list string) (c : string) :
  JS.distinct_from seen (l ++ [c])
  = (JS.distinct_from seen l
     ++ (if existsb (String.eqb c) seen || existsb (String.eqb c) l then [] else [c]))%list.
Proof.
  revert seen. induction l as [|x l IH]; intros seen; simpl.
  - rewrite orb_false_r. now destruct (existsb (String.eqb c) seen).
  - destruct (existsb (String.eqb x) seen) eqn:Ex.
    + rewrite IH. f_equal.
      destruct (String.eqb_spec c x) as [->|Hne]; simpl; [| reflexivity].
      now rewrite Ex.
    + simpl. rewrite IH. simpl. f_equal. f_equal.
      now destruct (String.eqb c x), (existsb (String.eqb c) seen).
Qed.

Lemma distinct_In (l : list string) (x : string) : In x (JS.distinct l) <-> In x l.
Proof.
  unfold JS.distinct. destruct (distinct_from_spec [] l) as [_ H].
  rewrite H. simpl. tauto.
Qed.

Lemma existsb_eqb_In (c : string) (l : list string) :
  existsb (String.eqb c) l = true <-> In c l.
Proof.
  rewrite List.existsb_exists. split.
  - intros (x & Hx & E). apply String.eqb_eq in E. now subst.
  - intros H. exists c. split; [assumption | apply String.eqb_refl].
Qed.

Lemma group_push_keys (keys : list string) (f : string -> list Transaction)
    (t : Transaction) :
  List.NoDup keys ->
  group_push (map (fun c => (c, f c)) keys) t
  = (map (fun c => (c, if String.eqb c (category t) then (f c ++ [t])%list else f c)) keys
     ++ (if existsb (String.eqb (category t)) keys then [] else [(category t, [t])]))%list.
Proof.
  induction 1 as [|k keys Hk Hn IH]; simpl; [reflexivity |].
  rewrite (String.eqb_sym (category t) k).
  destruct (String.eqb_spec k (category t)) as [E|Hne]; simpl.
  - rewrite List.app_nil_r. f_equal. apply map_ext_in. intros c Hc.
    destruct (String.eqb_spec c (category t)) as [E'|]; [| reflexivity].
    subst. contradiction.
  - now rewrite IH.
Qed.

Lemma of_category_snoc (l : list Transaction) (t : Transaction) (c : string) :
  of_category (l ++ [t]) c
  = if String.eqb c (category t) then (of_category l c ++ [t])%list else of_category l c.
Proof.
  unfold of_category. rewrite List.filter_app. simpl.
  rewrite (String.eqb_sym (category t) c).
  destruct (String.eqb c (category t)); [reflexivity | apply List.app_nil_r].
Qed.

Lemma of_category_none (l : list Transaction) (c : string) :
  ~ In c (map category l) -> of_category l c = [].
Proof.
  unfold of_category. induction l as [|u l IH]; simpl; [reflexivity |].
  intros H. destruct (String.eqb_spec (category u) c) as [E|Hne].
  - exfalso. apply H. now left.
  - apply IH. intros Hin. apply H. now right.
Qed.

(** The map of the tooltip: one entry per category, in the order in
    which the categories first occur, with the transactions of the
    category in their order. *)
Lemma categoryMap_groups (l : list Transaction) :
  fold_left group_push l []
  = map (fun c => (c, of_category l c)) (JS.distinct (map category l)).
Proof.
  induction l as [|t l IH] using rev_ind; [reflexivity |].
  rewrite fold_left_app, IH. simpl.
  rewrite group_push_keys by apply distinct_from_spec.
  rewrite map_app. simpl. unfold JS.distinct at 3. rewrite distinct_from_snoc.
  fold (JS.distinct (map category l)). simpl. rewrite map_app.
  f_equal.
  - apply map_ext. intros c. now rewrite of_category_snoc.
  - assert (existsb (String.eqb (category t)) (JS.distinct (map category l))
            = existsb (String.eqb (category t)) (map category l)) as ->.
    { apply eq_true_iff_eq. rewrite !existsb_eqb_In. apply distinct_In. }
    destruct (existsb (String.eqb (category t)) (map category l)) eqn:E;
      [reflexivity |].
    simpl. f_equal. f_equal. rewrite of_category_snoc, String.eqb_refl.
    rewrite of_category_none; [reflexivity |].
    intros H. apply existsb_eqb_In in H. congruence.
Qed.

Lemma group_push_grouped (m : list (string * list Transaction)) (t : Transaction) :
  grouped (group_push m t) = S (grouped m).
Proof.
  induction m as [|[c txns] m IH]; simpl; [reflexivity |].
  destruct (String.eqb c (category t)); simpl.
  - rewrite List.length_app. simpl. lia.
  - rewrite IH. lia.
Qed.

Lemma fold_group_push_grouped (l : list Transaction) (m : list (string * list Transaction)) :
  grouped (fold_left group_push l m) = (grouped m + length l)%nat.
Proof.
  revert m. induction l as [|t l IH]; intros m; simpl; [lia |].
  rewrite IH, group_push_grouped. lia.
Qed.

Lemma sort_grouped (cmp : string * list Transaction -> string * list Transaction -> Z)
    (m : list (string * list Transaction)) :
  grouped (JS.sort cmp m) = grouped m.
Proof.
  induction m as [|e m IH]; simpl; [reflexivity |].
  rewrite <- IH. generalize (JS.sort cmp m) as s. clear.
  induction s as [|e' s IHs]; simpl; [reflexivity |].
  destruct (cmp e e' <=? 0); simpl; lia.
Qed.

Lemma category_lines_count (toFixed : JS.number -> nat -> string)
    (m : list (string * list Transaction)) :
  length (concat (map (category_lines toFixed) m)) = (length m + grouped m)%nat.
Proof.
  induction m as [|[c txns] m IH]; simpl; [reflexivity |].
  rewrite List.length_app, length_map, IH. lia.
Qed.

(** X12.  The lines of the tooltip.  The dataset of the totals has none.
    Every other dataset has its headline and an empty line, and then,
    when the date has transactions, the heading of the breakdown, one
    line per category of the date and one line per transaction of the
    date: each transaction is listed once.  The line "No transactions"
    comes exactly when the date has no transaction, which no date of the
    x-axis does. *)
Theorem tooltip_lines (localeCompare : string -> string -> Z)
    (toFixed : JS.number -> nat -> string)
    (transactions : list Transaction) (d : string) (value : JS.number)
    (datasetLabel : string) :
  tooltip_label localeCompare toFixed transactions d value "Total (Daily)" = []
  /\ (datasetLabel <> "Total (Daily)" ->
        length (tooltip_label localeCompare toFixed transactions d value datasetLabel)
        = match transactions_on transactions d with
          | [] => 2%nat
          | day =>
              (3 + length (JS.distinct (map category day)) + length day)%nat
          end)
  /\ (tooltip_beforeBody transactions d = ["No transactions"]
        <-> transactions_on transactions d = [])
  /\ (In d (allDates transactions) -> tooltip_beforeBody transactions d = []).
Proof.
  split; [reflexivity |]. split; [| split].
  - intros Hl. unfold tooltip_label. apply String.eqb_neq in Hl. rewrite Hl.
    fold (transactions_on transactions d). cbv zeta.
    destruct (transactions_on transactions d) as [|t day]; [reflexivity |].
    set (cm := fold_left group_push (t :: day) []).
    assert (grouped cm = length (t :: day)) as Hg
      by apply (fold_group_push_grouped (t :: day) []).
    assert (length cm = length (JS.distinct (map category (t :: day)))) as Hc
      by (unfold cm; rewrite categoryMap_groups; apply length_map).
    assert ((0 <? length cm)%nat = true) as ->.
    { destruct cm; [discriminate Hg | reflexivity]. }
    cbn [length]. rewrite category_lines_count, sort_length, sort_grouped, Hg, Hc.
    cbn [length]. lia.
  - unfold tooltip_beforeBody. fold (transactions_on transactions d).
    destruct (transactions_on transactions d) as [|t day]; simpl.
    + tauto.
    + split; discriminate.
  - intros Hd. apply allDates_In, in_map_iff in Hd as (t & Ed & Ht).
    unfold tooltip_beforeBody.
    assert (In t (List.filter (fun t => String.eqb (date t) d) transactions)) as Hin.
    { apply filter_In. split; [assumption | now apply String.eqb_eq]. }
    destruct (List.filter (fun t => String.eqb (date t) d) transactions);
      [destruct Hin | reflexivity].
Qed.

Lemma tooltip_lines_witness :
  length (tooltip_label JS.compare_code_units (fun _ _ => "") three_days
            "2024-01-01" 10 "Cumulative") = 5%nat.
Proof.
  refine (eq_trans (proj1 (proj2 (tooltip_lines JS.compare_code_units (fun _ _ => "")
            three_days "2024-01-01" 10 "Cumulative")) _) _).
  - discriminate.
  - reflexivity.
Defined.

(* ===================================================================== *)
(** ** Further properties: the stored copy                                *)
(* ===================================================================== *)

Section PersistenceProperties.

Variable localeCompare : string -> string -> Z.
Variable stringify : list Transaction -> string.
Variable parse : string -> option (list Transaction).

Lemma save_effect_saved (transactions : list Transaction) (slot : option string) :
  saved stringify
    {| session_store := transactions;
       session_slot := save_effect stringify transactions slot |}.
Proof.
  unfold saved, save_effect. simpl. destruct transactions as [|t l].
  - intros H. exfalso. now apply H.
  - reflexivity.
Qed.

Lemma mount_saved (slot : option string) : saved stringify (mount stringify parse slot).
Proof.
  unfold mount. destruct (field_truthy slot) as [stored|].
  - destruct (parse stored) as [parsed|].
    + apply save_effect_saved.
    + unfold saved. simpl. intros H. exfalso. now apply H.
  - unfold saved. simpl. intros H. exfalso. now apply H.
Qed.

Lemma step_saved (s : Session) (e : event) :
  saved stringify s -> saved stringify (step localeCompare stringify parse s e).
Proof.
  intros Hs. destruct e as [|rows|]; simpl.
  - apply mount_saved.
  - destruct (parseCSV_throws rows); [exact Hs | apply save_effect_saved].
  - unfold saved. simpl. intros H. exfalso. now apply H.
Qed.

(** X13.  In a session, from the loading of the page on, whatever the
    storage held and whatever happens: a store that is not empty has its
    serialization in the storage; and after "Clear Data" the store is
    empty and the entry is gone, so that loading the page again starts
    with an empty store. *)
Theorem store_is_saved (slot : option string) (events : list event) :
  saved stringify
    (run localeCompare stringify parse events (mount stringify parse slot))
  /\ run localeCompare stringify parse (events ++ [Clear; Mount])
       (mount stringify parse slot)
     = {| session_store := []; session_slot := None |}.
Proof.
  split.
  - unfold run. generalize (mount_saved slot).
    generalize (mount stringify parse slot) as s.
    induction events as [|e events IH]; intros s Hs; simpl; [exact Hs |].
    apply IH. now apply step_saved.
  - unfold run. rewrite fold_left_app. reflexivity.
Qed.

(** X14.  Loading the page again gives the store back, when the store
    is not empty, its serialization is not the empty string, and
    [JSON.parse] reads the serialization as the store. *)
Theorem reload_restores (s : Session) :
  saved stringify s ->
  session_store s <> [] ->
  stringify (session_store s) <> "" ->
  parse (stringify (session_store s)) = Some (session_store s) ->
  step localeCompare stringify parse s Mount = s.
Proof.
  intros Hs Hne Hstr Hparse. specialize (Hs Hne).
  destruct s as [transactions slot]. simpl in *. subst slot.
  unfold mount. simpl.
  apply String.eqb_neq in Hstr. rewrite Hstr, Hparse.
  unfold save_effect. destruct transactions as [|t l]; [| reflexivity].
  exfalso. now apply Hne.
Qed.

End PersistenceProperties.

Lemma reload_restores_witness :
  step JS.compare_code_units (fun _ => "saved") (fun _ => Some three_days)
    {| session_store := three_days; session_slot := Some "saved" |} Mount
  = {| session_store := three_days; session_slot := Some "saved" |}.
Proof.
  refine (reload_restores JS.compare_code_units (fun _ => "saved")
            (fun _ => Some three_days)
            {| session_store := three_days; session_slot := Some "saved" |} _ _ _ _).
  - intros _. reflexivity.
  - discriminate.
  - discriminate.
  - reflexivity.
Defined.

(* ===================================================================== *)
(** ** Further properties: the amount that [parseFloat] reads            *)
(* ===================================================================== *)

Lemma parseFloat_not_started (c : ascii) (s : string) :
  starts_number c = false -> JS.parseFloat (String c s) = nan.
Proof.
  destruct c as [b0 b1 b2 b3 b4 b5 b6 b7].
  destruct b0, b1, b2, b3, b4, b5, b6, b7; intros H;
    try (vm_compute in H; discriminate H); reflexivity.
Qed.

Lemma scan_digits_all (ds : string) (acc : Z) (cnt : nat) :
  all_digits ds = true ->
  exists v, JS.scan_digits ds acc cnt = (v, (cnt + String.length ds)%nat, EmptyString)
            /\ forall c s, is_digit c = false ->
                 JS.scan_digits (ds ++ String c s) acc cnt
                 = (v, (cnt + String.length ds)%nat, String c s).
Proof.
  revert acc cnt. induction ds as [|d ds IH]; intros acc cnt H.
  - exists acc. simpl. rewrite Nat.add_0_r. split; [reflexivity |].
    intros c s Hc. rewrite ?append_nil. simpl. unfold is_digit in Hc.
    destruct (JS.digit_of c); [discriminate | reflexivity].
  - simpl in H. apply andb_true_iff in H as [Hd Hds].
    unfold is_digit in Hd. destruct (JS.digit_of d) as [x|] eqn:Ed; [| discriminate].
    destruct (IH (10 * acc + x) (S cnt) Hds) as (v & Hv & Happ).
    exists v. simpl. rewrite Ed, Hv.
    replace (cnt + S (String.length ds))%nat with (S cnt + String.length ds)%nat by lia.
    split; [reflexivity |].
    intros c s Hc. rewrite ?append_cons. simpl. rewrite ?Ed. now apply Happ.
Qed.

(** A string that starts with a digit is read as an unsigned literal. *)
Lemma parseFloat_digit_head (d : ascii) (rest : string) :
  is_digit d = true ->
  JS.parseFloat (String d rest)
  = match JS.scan_unsigned (String d rest) with
    | Some l => JS.literal_value l
    | None => nan
    end.
Proof.
  destruct d as [b0 b1 b2 b3 b4 b5 b6 b7].
  destruct b0, b1, b2, b3, b4, b5, b6, b7; intros H;
    try (vm_compute in H; discriminate H); reflexivity.
Qed.

Lemma prefix_Infinity_digit (d : ascii) (rest : string) :
  is_digit d = true -> String.prefix "Infinity" (String d rest) = false.
Proof.
  destruct d as [b0 b1 b2 b3 b4 b5 b6 b7].
  destruct b0, b1, b2, b3, b4, b5, b6, b7; intros H;
    try (vm_compute in H; discriminate H); reflexivity.
Qed.

(** The literal ends where neither a digit nor a dot follows the digits. *)
Lemma literal_ends (ip : Z) (ni : nat) (c : ascii) (s : string) :
  Ascii.eqb c "." = false ->
  match String c s with
  | String "." r2 =>
      let '(m, nf, r3) := JS.scan_digits r2 ip 0 in
      if ((ni =? 0) && (nf =? 0))%nat then None
      else Some (JS.LitDecimal m (JS.scan_exponent r3 - Z.of_nat nf))
  | _ =>
      if (ni =? 0)%nat then None
      else Some (JS.LitDecimal ip (JS.scan_exponent (String c s)))
  end
  = if (ni =? 0)%nat then None
    else Some (JS.LitDecimal ip (JS.scan_exponent (String c s))).
Proof.
  destruct c as [b0 b1 b2 b3 b4 b5 b6 b7].
  destruct b0, b1, b2, b3, b4, b5, b6, b7; intros H;
    try (vm_compute in H; discriminate H); reflexivity.
Qed.

Lemma scan_unsigned_digits (ds : string) (c : ascii) (s : string) :
  all_digits ds = true -> ds <> EmptyString -> continues_number c = false ->
  JS.scan_unsigned (ds ++ String c s) = JS.scan_unsigned ds.
Proof.
  intros Hds Hne Hc.
  unfold continues_number in Hc.
  apply orb_false_iff in Hc as [Hc HE].
  apply orb_false_iff in Hc as [Hc He].
  apply orb_false_iff in Hc as [Hdig Hdot].
  destruct ds as [|d ds']; [exfalso; now apply Hne |].
  assert (Hd : is_digit d = true).
  { simpl in Hds. now apply andb_true_iff in Hds as [Hd _]. }
  destruct (scan_digits_all (String d ds') 0 0 Hds) as (v & Hv & Happ).
  specialize (Happ c s Hdig).
  unfold JS.scan_unsigned. rewrite Hv, Happ.
  rewrite append_cons, !(prefix_Infinity_digit d) by exact Hd.
  rewrite (literal_ends v _ c s Hdot).
  unfold JS.scan_exponent. rewrite He, HE. reflexivity.
Qed.

Lemma parseFloat_signed_digits (sign ds : string) (c : ascii) (s : string) :
  In sign [EmptyString; "-"; "+"] ->
  all_digits ds = true -> ds <> EmptyString -> continues_number c = false ->
  JS.parseFloat (sign ++ ds ++ String c s) = JS.parseFloat (sign ++ ds).
Proof.
  intros Hsign Hds Hne Hc.
  pose proof (scan_unsigned_digits ds c s Hds Hne Hc) as Hscan.
  destruct Hsign as [<- | [<- | [<- | []]]].
  - rewrite !append_nil.
    destruct ds as [|d ds']; [exfalso; now apply Hne |].
    assert (Hd : is_digit d = true).
    { simpl in Hds. now apply andb_true_iff in Hds as [Hd _]. }
    rewrite append_cons in *.
    rewrite !(parseFloat_digit_head d) by exact Hd. now rewrite Hscan.
  - rewrite !append_cons, !append_nil.
    change (JS.parseFloat (String "-" (ds ++ String c s)))
      with (match JS.scan_unsigned (ds ++ String c s) with
            | Some l => (- JS.literal_value l)%float
            | None => nan
            end).
    now rewrite Hscan.
  - rewrite !append_cons, !append_nil.
    change (JS.parseFloat (String "+" (ds ++ String c s)))
      with (match JS.scan_unsigned (ds ++ String c s) with
            | Some l => JS.literal_value l
            | None => nan
            end).
    now rewrite Hscan.
Qed.

(** X15 (parseCSV, the callback of forEach): a row whose amount starts with
    a character with which no number starts (not white space, a sign, a
    digit, a dot or the [I] of [Infinity]) has the amount [NaN], and is
    never pushed, whatever its other fields are. *)
Theorem unreadable_amount_not_pushed (row : RawRow) (c : ascii) (s : string) :
  Amount row = Some (String c s) ->
  starts_number c = false ->
  JS.parseFloat (String c s) = nan
  /\ forall t, normalize_row row <> Pushed t.
Proof.
  intros Hrow Hc.
  pose proof (parseFloat_not_started c s Hc) as Hnan.
  split; [exact Hnan |].
  intros t. unfold normalize_row. rewrite Hrow.
  change (field_truthy (Some (String c s))) with (Some (String c s)).
  destruct (field_truthy (Transaction_Date row)) as [dateStr|]; [| discriminate].
  destruct (JS.split "/" dateStr) as [|month [|day rest]]; try discriminate.
  rewrite Hnan. discriminate.
Qed.

Lemma unreadable_amount_not_pushed_witness :
  normalize_row {| Transaction_Date := Some "01/15/2024"; Amount := Some "$12.50";
                   Description := Some "Coffee"; Category := Some "Food" |}
  = Skipped.
Proof.
  destruct (unreadable_amount_not_pushed
              {| Transaction_Date := Some "01/15/2024"; Amount := Some "$12.50";
                 Description := Some "Coffee"; Category := Some "Food" |}
              "$" "12.50" eq_refl eq_refl) as [_ H].
  destruct (normalize_row _) as [t| |] eqn:E.
  - exfalso. now apply (H t).
  - reflexivity.
  - vm_compute in E. discriminate E.
Defined.

(** X16 (parseCSV, the callback of forEach): the amount is read up to the
    first character that cannot go on a number.  When the amount is an
    optional sign and digits followed by a character that is neither a
    digit, a dot nor an exponent mark (a thousands separator, a space, a
    currency name), the row gives what the row with the sign and the digits
    alone gives: what follows is dropped without an error. *)
Theorem amount_read_up_to_separator (row : RawRow) (sign ds : string)
    (c : ascii) (s : string) :
  In sign [EmptyString; "-"; "+"] ->
  all_digits ds = true -> ds <> EmptyString -> continues_number c = false ->
  Amount row = Some (sign ++ ds ++ String c s) ->
  JS.parseFloat (sign ++ ds ++ String c s) = JS.parseFloat (sign ++ ds)
  /\ normalize_row row
     = normalize_row {| Transaction_Date := Transaction_Date row;
                        Amount := Some (sign ++ ds);
                        Description := Description row;
                        Category := Category row |}.
Proof.
  intros Hsign Hds Hne Hc Hrow.
  pose proof (parseFloat_signed_digits sign ds c s Hsign Hds Hne Hc) as Hp.
  split; [exact Hp |].
  unfold normalize_row. rewrite Hrow. cbn [Transaction_Date Amount Description Category].
  assert (H1 : field_truthy (Some (sign ++ ds ++ String c s))
               = Some (sign ++ ds ++ String c s)).
  { destruct ds as [|d ds']; [exfalso; now apply Hne |].
    destruct Hsign as [<- | [<- | [<- | []]]];
      rewrite ?append_nil, ?append_cons; reflexivity. }
  assert (H2 : field_truthy (Some (sign ++ ds)) = Some (sign ++ ds)).
  { destruct ds as [|d ds']; [exfalso; now apply Hne |].
    destruct Hsign as [<- | [<- | [<- | []]]];
      rewrite ?append_nil, ?append_cons; reflexivity. }
  rewrite H1, H2, Hp. reflexivity.
Qed.

Lemma amount_read_up_to_separator_witness :
  JS.parseFloat "-1,234.56" = JS.parseFloat "-1"
  /\ normalize_row {| Transaction_Date := Some "01/15/2024";
                      Amount := Some "-1,234.56";
                      Description := Some "Rent"; Category := Some "Home" |}
     = normalize_row {| Transaction_Date := Some "01/15/2024";
                        Amount := Some "-1";
                        Description := Some "Rent"; Category := Some "Home" |}.
Proof.
  apply (amount_read_up_to_separator
           {| Transaction_Date := Some "01/15/2024"; Amount := Some "-1,234.56";
              Description := Some "Rent"; Category := Some "Home" |}
           "-" "1" "," "234.56").
  - right. left. reflexivity.
  - reflexivity.
  - discriminate.
  - reflexivity.
  - reflexivity.
Defined.

(* ===================================================================== *)
(** ** Further properties: the color of a category                       *)
(* ===================================================================== *)

Lemma colors_own_length (category c : string) :
  colors !! category = Some c -> String.length c = 7%nat.
Proof.
  unfold colors. intros H.
  apply elem_of_list_to_map_2 in H.
  repeat (apply elem_of_cons in H as [H | H]; [injection H as -> ->; reflexivity |]).
  now apply elem_of_nil in H.
Qed.

Lemma inherited_In (category : string) :
  inherited category = true <-> In category object_prototype_keys.
Proof.
  unfold inherited. rewrite existsb_exists. split.
  - intros (k & Hk & E). apply String.eqb_eq in E. now subst k.
  - intros H. exists category. split; [exact H | apply String.eqb_refl].
Qed.

Lemma inherited_not_own (category : string) :
  In category object_prototype_keys -> colors !! category = None.
Proof.
  unfold object_prototype_keys. intros H.
  repeat (destruct H as [<- | H]; [reflexivity |]).
  destruct H.
Qed.

(** X17.  [getCategoryColor] gives a string for every category but twelve:
    for a name that every object inherits ([constructor], [toString],
    [__proto__], ...) the test [colors[category]] is truthy and the
    function returns that member, which is no string.  For every other
    category the result is a string: a color of the table, of seven
    characters, or the [hsl] string made from the hash. *)
Theorem category_color_is_string (category : string) :
  (getCategoryColor category = PrototypeMember category
   <-> In category object_prototype_keys)
  /\ (forall key, getCategoryColor category = PrototypeMember key -> key = category)
  /\ (forall c, getCategoryColor category = Css c ->
        (colors !! category = Some c /\ String.length c = 7%nat)
        \/ (colors !! category = None
            /\ c = "hsl(" ++ JS.show_int (hue category) ++ ", 70%, 50%)"))
  /\ (forall c, colors !! category = Some c -> getCategoryColor category = Css c).
Proof.
  unfold getCategoryColor. split; [| split; [| split]].
  - split.
    + destruct (colors !! category) as [c|]; [discriminate |].
      destruct (inherited category) eqn:E; [| discriminate].
      intros _. now apply inherited_In.
    + intros H. rewrite (inherited_not_own category H).
      apply inherited_In in H. now rewrite H.
  - intros key. destruct (colors !! category) as [c|]; [discriminate |].
    destruct (inherited category); [| discriminate].
    intros H. now injection H as <-.
  - intros c. destruct (colors !! category) as [c'|] eqn:E.
    + intros H. injection H as ->. left. split; [reflexivity |].
      now apply (colors_own_length category).
    + destruct (inherited category); [discriminate |].
      intros H. injection H as <-. right. split; reflexivity.
  - intros c ->. reflexivity.
Qed.
